(** * Freshness-driven batch renderer: [scripts/mermaid/generate-svgs.py]

    A shallow embedding of the script and the properties of its
    specification.  Python [str] values are modelled as [string] (a sequence
    of 8-bit characters compared by character code, which for UTF-8 encoded
    text is the code-point order Python uses); the operating system is a
    record of the answers it gives; the external renderer is a parameter. *)

From Stdlib Require Import ZArith String Ascii DecimalString.
From stdpp Require Import gmap strings list sorting.

Local Open Scope string_scope.
Local Open Scope list_scope.

(** ** Python string operations used by the script *)

Module Str.

(** [s.startswith(p)] *)
Definition startswith (s p : string) : bool := String.prefix p s.

(** [s.endswith(suf)]: [s] is [suf], or its tail ends with [suf]. *)
Fixpoint endswith (s suf : string) : bool :=
  String.eqb s suf ||
  match s with
  | "" => false
  | String _ s' => endswith s' suf
  end.

(** [sub in s] *)
Fixpoint contains (sub s : string) : bool :=
  String.prefix sub s ||
  match s with
  | "" => false
  | String _ s' => contains sub s'
  end.

(** [s.replace("", new)]: [new] before every character and at the end. *)
Fixpoint intersperse (new s : string) : string :=
  match s with
  | "" => new
  | String c s' => new ++ String c (intersperse new s')
  end.

(** Left-to-right scan of [s.replace(old, new)] for a non-empty [old];
    [skip] counts the characters of the occurrence just replaced that are
    still to be passed over, so that occurrences never overlap. *)
Fixpoint replace_from (old new : string) (skip : nat) (s : string) : string :=
  match s with
  | "" => ""
  | String c s' =>
      match skip with
      | S k => replace_from old new k s'
      | O =>
          if String.prefix old s
          then new ++ replace_from old new (String.length old - 1) s'
          else String c (replace_from old new 0 s')
      end
  end.

(** [s.replace(old, new)]: every non-overlapping occurrence, from the left. *)
Definition replace (s old new : string) : string :=
  match old with
  | "" => intersperse new s
  | _ => replace_from old new 0 s
  end.

(** [chr(10)] *)
Definition nl : string := String (ascii_of_nat 10) "".

(** [str(n)] for a non-negative integer. *)
Definition of_nat (n : nat) : string := NilZero.string_of_uint (Nat.to_uint n).

(** ASCII white space, as removed by [str.strip()]. *)
Definition is_space (c : ascii) : bool :=
  let n := nat_of_ascii c in
  (((9 <=? n) && (n <=? 13)) || ((28 <=? n) && (n <=? 32)))%nat.

Fixpoint lstrip (s : string) : string :=
  match s with
  | "" => ""
  | String c s' => if is_space c then lstrip s' else s
  end.

(** [s.strip()] *)
Definition strip (s : string) : string :=
  String.rev (lstrip (String.rev (lstrip s))).

(** [s.split(sep)] for a one-character separator; [cur] is the field being
    read.  The empty string splits into one empty field. *)
Fixpoint split_go (sep : ascii) (cur : string) (s : string) : list string :=
  match s with
  | "" => [String.rev cur]
  | String c s' =>
      if Ascii.eqb c sep
      then String.rev cur :: split_go sep "" s'
      else split_go sep (String c cur) s'
  end.

Definition split (sep : ascii) (s : string) : list string := split_go sep "" s.

(** [s.lower()] on ASCII letters. *)
Definition lower_char (c : ascii) : ascii :=
  let n := nat_of_ascii c in
  if ((65 <=? n) && (n <=? 90))%nat then ascii_of_nat (n + 32) else c.

Fixpoint lower (s : string) : string :=
  match s with
  | "" => ""
  | String c s' => String (lower_char c) (lower s')
  end.

End Str.

(** [sorted(l)] on a list of strings. *)
Definition sorted (l : list string) : list string := merge_sort String.le l.

(** ** [os.path] *)

Module Path.

(** [posixpath.join(a, b)]: an absolute [b] replaces [a]; otherwise the two
    are concatenated, with a separator unless [a] is empty or already ends
    with one. *)
Definition join2 (a b : string) : string :=
  if Str.startswith b "/" then b
  else if String.eqb a "" || Str.endswith a "/" then a ++ b
  else a ++ "/" ++ b.

(** [os.path.join(a, *p)] *)
Definition join (a : string) (p : list string) : string := fold_left join2 p a.

End Path.

(** ** The file system as the script observes it *)

(** A directory as [os.walk] lists it: the names of its non-directory
    entries, and its sub-directories by name, both in listing order.  A
    symbolic link to a directory is listed among the sub-directories and not
    entered: it is a sub-directory with nothing below it. *)
#[local] Unset Elimination Schemes.
Inductive tree : Type :=
| Dir (files : list string) (subdirs : list (string * tree)).
#[local] Set Elimination Schemes.

(** What the operating system answers.  [fs_mtime p] is the modification time
    [os.stat(p)] reports, [None] when the path does not resolve (a finite
    float is an integer multiple of a fixed power of two, so [Z] carries the
    order of the values [os.path.getmtime] returns); [fs_tree p] is the tree
    below [p] when [p] can be listed as a directory; [fs_glob pat] are the
    paths [glob.glob(pat)] returns, in the order it returns them. *)
Record FS : Type := mkFS {
  fs_mtime : string -> option Z;
  fs_tree : string -> option tree;
  fs_glob : string -> list string;
}.

(** One entry of an [os.walk] iteration: [(root, dirs, files)]. *)
Definition walk_entry : Type := string * list string * list string.

(** Top-down [os.walk] over a tree, where the loop body replaces [dirs] in
    place by the names satisfying [keep] before the walk goes on: the entry
    of a directory comes first, then the walks of the kept sub-directories in
    listing order, each under [join(top, name)].  The names of a directory
    being distinct, descending by kept name is descending into the kept
    sub-directories. *)
Fixpoint walk (keep : string -> bool) (top : string) (t : tree) : list walk_entry :=
  match t with
  | Dir files subdirs =>
      (top, List.filter keep (map fst subdirs), files) ::
      flat_map (fun sub : string * tree =>
                  if keep sub.1 then walk keep (Path.join2 top sub.1) sub.2 else [])
               subdirs
  end.

(** ** Source discovery *)

Definition skipped_dirs : list string :=
  [".git"; ".venv"; "__pycache__"; "node_modules"].

(** [d not in ['.git', '.venv', '__pycache__', 'node_modules']] *)
Definition keep_dir (d : string) : bool :=
  negb (bool_decide (d ∈ skipped_dirs)).

(** The body of the loop of [find_mmd_files] for one entry. *)
Definition mmd_of_entry (e : walk_entry) : list string :=
  let '(root, _, files) := e in
  map (Path.join2 root) (List.filter (fun file => Str.endswith file ".mmd") files).

(** [mmd_files] when the loop of [find_mmd_files] ends. *)
Definition collect_mmd (entries : list walk_entry) : list string :=
  flat_map mmd_of_entry entries.


(** ** The running process *)

(** The exceptions the script can meet.  [SystemExit] is what [sys.exit]
    raises; [PermissionError] stands for any [OSError] of a launch other than
    [FileNotFoundError]; [IndexError] is what indexing past the end of a list
    raises; [UnicodeDecodeError] is what decoding captured output raises when
    the bytes are not text in the encoding of the locale. *)
Inductive exn : Type :=
| CalledProcessError (returncode : Z) (stderr : string)
| FileNotFoundError
| PermissionError
| IndexError
| UnicodeDecodeError
| SystemExit (code : Z).

(** How a launch of the external program ends, as [subprocess.run] with
    [capture_output=True, text=True] meets it.  [Exited]: the program ran and
    exited, and what it wrote decodes, [stdout] and [stderr] being the decoded
    texts.  [Garbled]: the program ran and exited, and what it wrote on one of
    the two streams does not decode.  [NotFound] and [Denied]: the program
    could not be started. *)
Inductive launch : Type :=
| Exited (returncode : Z) (stdout stderr : string)
| Garbled (returncode : Z)
| NotFound
| Denied.

Abbreviation environment := (gmap string string).

(** What the run does to the world around it: directory traversals and
    launches of the external program with the child's environment. *)
Inductive event : Type :=
| EvWalk (top : string)
| EvRun (argv : list string) (env : environment) (outcome : launch).

(** State of the process: the file system it sees, the lines printed so far
    and the events so far. *)
Record proc : Type := mkProc {
  p_fs : FS;
  p_out : list string;
  p_trace : list event;
}.

Inductive res (A : Type) : Type :=
| Ret (a : A)
| Raise (e : exn).
Arguments Ret {A} a.
Arguments Raise {A} e.

(** A computation either returns or raises, and leaves a state. *)
Definition M (A : Type) : Type := proc -> res A * proc.

Definition ret {A} (a : A) : M A := fun st => (Ret a, st).

Definition raise {A} (e : exn) : M A := fun st => (Raise e, st).

Definition bind {A B} (m : M A) (k : A -> M B) : M B :=
  fun st =>
    match m st with
    | (Ret a, st') => k a st'
    | (Raise e, st') => (Raise e, st')
    end.

(** [try: m  except <the classes handler accepts>: ...] *)
Definition try_except {A} (m : M A) (handler : exn -> option (M A)) : M A :=
  fun st =>
    match m st with
    | (Ret a, st') => (Ret a, st')
    | (Raise e, st') =>
        match handler e with
        | Some h => h st'
        | None => (Raise e, st')
        end
    end.

Declare Scope py_scope.
Delimit Scope py_scope with py.
Notation "'let*' p := m 'in' k" := (bind m (fun x => let 'p := x in k))
  (at level 10, p pattern, m at level 200, k at level 200,
   format "'[v' 'let*'  p  :=  m  'in' '/' k ']'") : py_scope.
Notation "m ;; k" := (bind m (fun _ => k))
  (at level 100, right associativity) : py_scope.
Local Open Scope py_scope.

(** [for x in l: acc = body(x, acc)] *)
Fixpoint for_each {A S} (l : list A) (body : A -> S -> M S) (acc : S) : M S :=
  match l with
  | [] => ret acc
  | x :: l' => let* acc' := body x acc in for_each l' body acc'
  end.

(** The exit status the operating system sees: the code of [sys.exit], and 1
    for any other exception that reaches the top. *)
Definition exit_status {A} (r : res A) : Z :=
  match r with
  | Ret _ => 0
  | Raise (SystemExit n) => n
  | Raise _ => 1
  end.

(** [print(s)] *)
Definition print (s : string) : M unit :=
  fun st => (Ret tt, mkProc (p_fs st) (p_out st ++ [s]) (p_trace st)).

(** [sys.exit(n)] *)
Definition sys_exit {A} (n : Z) : M A := raise (SystemExit n).

(** [os.path.exists(p)] *)
Definition os_path_exists (p : string) : M bool :=
  fun st => (Ret (bool_decide (is_Some (fs_mtime (p_fs st) p))), st).

(** [os.path.getmtime(p)] *)
Definition os_path_getmtime (p : string) : M Z :=
  fun st =>
    match fs_mtime (p_fs st) p with
    | Some t => (Ret t, st)
    | None => (Raise FileNotFoundError, st)
    end.

(** [glob.glob(pattern)] *)
Definition glob_glob (pattern : string) : M (list string) :=
  fun st => (Ret (fs_glob (p_fs st) pattern), st).

(** [os.walk(top)] with the pruning of the loop body; nothing is yielded when
    [top] cannot be listed. *)
Definition os_walk (keep : string -> bool) (top : string) : M (list walk_entry) :=
  fun st =>
    (Ret match fs_tree (p_fs st) top with
         | Some t => walk keep top t
         | None => []
         end,
     mkProc (p_fs st) (p_out st) (p_trace st ++ [EvWalk top])).

Definition find_mmd_files (root_dir : string) : M (list string) :=
  let* entries := os_walk keep_dir root_dir in
  ret (sorted (collect_mmd entries)).

(** ** Freshness evaluation *)

Definition needs_generation (mmd_file : string) : M (bool * string) :=
  let svg_file := Str.replace mmd_file ".mmd" ".svg" in
  let* svg_exists := os_path_exists svg_file in
  if negb svg_exists then ret (true, "missing")
  else
    let* mmd_mtime := os_path_getmtime mmd_file in
    let* svg_mtime := os_path_getmtime svg_file in
    if (mmd_mtime >? svg_mtime)%Z then ret (true, "outdated")
    else ret (false, "up_to_date").

(** ** The parts that depend on the host and on the external program *)

(** What the process inherits: the home directory [os.path.expanduser('~')]
    resolves to, and [os.environ]. *)
Record Host : Type := mkHost {
  home_dir : string;
  environ : environment;
}.

(** The running tally of the main loop. *)
Record tally : Type := mkTally {
  generated : nat;
  updated : nat;
  skipped : nat;
  errors : list (string * option string);
}.

(** [str(x)] of a value that is a string or [None]. *)
Definition py_str (x : option string) : string :=
  match x with
  | Some s => s
  | None => "None"
  end.

Definition system_chrome_paths : list string :=
  ["/Applications/Google Chrome.app/Contents/MacOS/Google Chrome";
   "/Applications/Chromium.app/Contents/MacOS/Chromium";
   "/usr/bin/google-chrome";
   "/usr/bin/chromium"].

Definition puppeteer_cache_paths (home : string) : list string :=
  [Path.join home [".cache"; "puppeteer"; "chrome"; "*"; "chrome-mac-arm64";
                   "Google Chrome.app"; "Contents"; "MacOS"; "Google Chrome"];
   Path.join home [".cache"; "puppeteer"; "chrome"; "*"; "chrome-mac-x64";
                   "Google Chrome.app"; "Contents"; "MacOS"; "Google Chrome"];
   Path.join home [".cache"; "puppeteer"; "chrome"; "*";
                   "chrome-headless-shell-mac-arm64"; "chrome-headless-shell"];
   Path.join home [".cache"; "puppeteer"; "chrome"; "*";
                   "chrome-headless-shell-mac-x64"; "chrome-headless-shell"];
   Path.join home [".cache"; "puppeteer"; "chrome"; "*";
                   "chrome-headless-shell"; "chrome-headless-shell"]].

Definition puppeteer_direct_paths (home : string) : list string :=
  [Path.join home [".cache"; "puppeteer"; "chrome"]].

(** The three loops of [find_chrome_path]; each yields [Some p] when its body
    executes [return p] and [None] when it runs to its end. *)

(** [for path in system_chrome_paths: if os.path.exists(path): return path] *)
Fixpoint first_existing (paths : list string) : M (option string) :=
  match paths with
  | [] => ret None
  | path :: rest =>
      let* found := os_path_exists path in
      if found then ret (Some path) else first_existing rest
  end.

(** [for pattern in puppeteer_cache_paths: ... return sorted(matches)[-1]] *)
Fixpoint first_glob (patterns : list string) : M (option string) :=
  match patterns with
  | [] => ret None
  | pattern :: rest =>
      let* matches := glob_glob pattern in
      match matches with
      | [] => first_glob rest
      | _ =>
          match last (sorted matches) with
          | Some p => ret (Some p)
          | None => raise IndexError
          end
      end
  end.

(** [for root, dirs, files in os.walk(base_path): ...] *)
Fixpoint scan_cache (entries : list walk_entry) : option string :=
  match entries with
  | [] => None
  | (root, _, files) :: rest =>
      if bool_decide ("chrome-headless-shell" ∈ files)
      then Some (Path.join root ["chrome-headless-shell"])
      else if bool_decide ("chrome" ∈ files) && negb (Str.contains "headless" root)
      then Some (Path.join root ["chrome"])
      else scan_cache rest
  end.

(** [for base_path in puppeteer_direct_paths: ...] *)
Fixpoint first_cached (bases : list string) : M (option string) :=
  match bases with
  | [] => ret None
  | base_path :: rest =>
      let* present := os_path_exists base_path in
      if present then
        let* entries := os_walk (fun _ => true) base_path in
        match scan_cache entries with
        | Some p => ret (Some p)
        | None => first_cached rest
        end
      else first_cached rest
  end.

Section Script.

Variable host : Host.

(** The external world at a launch: from the file system, the argument vector
    and the child's environment to how the launch ends and the file system it
    leaves. *)
Variable spawn : FS -> list string -> environment -> launch * FS.

(** [subprocess.run(argv, capture_output=True, check=True, text=True, env=env)];
    the result is the completed process's captured [(stdout, stderr)].  The
    captured bytes are decoded when the program has ended and before its exit
    status is looked at, so output that does not decode raises whatever the
    status. *)
Definition subprocess_run (argv : list string) (env : environment) : M (string * string) :=
  fun st =>
    let '(outcome, fs') := spawn (p_fs st) argv env in
    let st' := mkProc fs' (p_out st) (p_trace st ++ [EvRun argv env outcome]) in
    match outcome with
    | Exited code out err =>
        if (code =? 0)%Z then (Ret (out, err), st')
        else (Raise (CalledProcessError code err), st')
    | Garbled _ => (Raise UnicodeDecodeError, st')
    | NotFound => (Raise FileNotFoundError, st')
    | Denied => (Raise PermissionError, st')
    end.

(** The state a launch leaves. *)
Definition launched (st : proc) (argv : list string) (env : environment) : proc :=
  mkProc (spawn (p_fs st) argv env).2 (p_out st)
         (p_trace st ++ [EvRun argv env (spawn (p_fs st) argv env).1]).

(** ** Availability check *)

(** No [env] is passed: the child inherits [os.environ]. *)
Definition check_mmdc : M bool :=
  try_except
    (subprocess_run ["mmdc"; "--version"] (environ host) ;; ret true)
    (fun e =>
       match e with
       | CalledProcessError _ _ | FileNotFoundError => Some (ret false)
       | _ => None
       end).

(** ** Helper-executable discovery *)

Definition find_chrome_path : M (option string) :=
  let* r := first_existing system_chrome_paths in
  match r with
  | Some path => ret (Some path)
  | None =>
      let home := home_dir host in
      let* r := first_glob (puppeteer_cache_paths home) in
      match r with
      | Some path => ret (Some path)
      | None => first_cached (puppeteer_direct_paths home)
      end
  end.

(** ** Render invocation *)

(** [env = os.environ.copy()] followed by the two assignments made when
    [chrome_path] is truthy (neither [None] nor the empty string). *)
Definition child_env (chrome_path : option string) : environment :=
  match chrome_path with
  | Some p =>
      if String.eqb p "" then environ host
      else <["CHROME_PATH" := p]> (<["PUPPETEER_EXECUTABLE_PATH" := p]> (environ host))
  | None => environ host
  end.

Definition generate_svg (mmd_file : string) : M (bool * option string) :=
  let svg_file := Str.replace mmd_file ".mmd" ".svg" in
  let* chrome_path := find_chrome_path in
  let env := child_env chrome_path in
  try_except
    (subprocess_run ["mmdc"; "-i"; mmd_file; "-o"; svg_file] env ;; ret (true, None))
    (fun e =>
       match e with
       | CalledProcessError _ stderr => Some (ret (false, Some stderr))
       | _ => None
       end).

(** ** The main loop *)

(** The body of [for mmd_file in mmd_files]. *)
Definition process_file (mmd_file : string) (t : tally) : M tally :=
  let* (needs_gen, status) := needs_generation mmd_file in
  if negb needs_gen
  then ret (mkTally (generated t) (updated t) (skipped t + 1) (errors t))
  else
    let svg_file := Str.replace mmd_file ".mmd" ".svg" in
    if String.eqb status "missing" then
      print ("Generating: " ++ svg_file) ;;
      let* (success, error) := generate_svg mmd_file in
      if success
      then ret (mkTally (generated t + 1) (updated t) (skipped t) (errors t))
      else ret (mkTally (generated t) (updated t) (skipped t)
                        (errors t ++ [(mmd_file, error)]))
    else if String.eqb status "outdated" then
      print ("Updating: " ++ svg_file ++ " (source is newer)") ;;
      let* (success, error) := generate_svg mmd_file in
      if success
      then ret (mkTally (generated t) (updated t + 1) (skipped t) (errors t))
      else ret (mkTally (generated t) (updated t) (skipped t)
                        (errors t ++ [(mmd_file, error)]))
    else ret t.

(** The statements shared by the two rendering branches of the loop body:
    announce, render, and count the file under [t_ok] or under the errors. *)
Definition render_step (mmd_file line : string) (t t_ok : tally) : M tally :=
  print line ;;
  let* (success, error) := generate_svg mmd_file in
  if success then ret t_ok
  else ret (mkTally (generated t) (updated t) (skipped t)
                    (errors t ++ [(mmd_file, error)])).

Definition process_files (mmd_files : list string) (t : tally) : M tally :=
  for_each mmd_files process_file t.

(** ** Reporting *)

Definition summary_line (t : tally) : string :=
  Str.nl ++ "Summary: Generated: " ++ Str.of_nat (generated t)
  ++ ", Updated: " ++ Str.of_nat (updated t)
  ++ ", Skipped: " ++ Str.of_nat (skipped t)
  ++ ", Errors: " ++ Str.of_nat (length (errors t)).

(** The body of [for mmd_file, error in errors]. *)
Definition print_error (e : string * option string) : M unit :=
  let '(mmd_file, error) := e in
  print ("  " ++ mmd_file ++ ":") ;;
  let error_lines := Str.split (ascii_of_nat 10) (Str.strip (py_str error)) in
  for_each (take 3 error_lines) (fun line _ => print ("    " ++ line)) tt ;;
  if (3 <? length error_lines)%nat
  then print ("    ... (" ++ Str.of_nat (length error_lines - 3) ++ " more lines)")
  else ret tt.

(** [any("Chrome" in str(e) or "puppeteer" in str(e).lower() for _, e in errors)] *)
Definition chrome_error (errs : list (string * option string)) : bool :=
  existsb (fun e => Str.contains "Chrome" (py_str e.2)
                    || Str.contains "puppeteer" (Str.lower (py_str e.2))) errs.

(** The part of [main] after the loop: the summary, the error listing and
    the exit. *)
Definition report (t : tally) : M unit :=
  print (summary_line t) ;;
  (match errors t with
   | [] => ret tt
   | _ =>
       print (Str.nl ++ "Errors:") ;;
       for_each (errors t) (fun e _ => print_error e) tt ;;
       (if chrome_error (errors t) then
          print (Str.nl ++ "Note: Chrome/Chromium is required for mermaid-cli.") ;;
          print "Install it with: npx puppeteer browsers install chrome-headless-shell" ;;
          sys_exit 1
        else ret tt) ;;
       sys_exit 1
   end) ;;
  sys_exit 0.

Definition main : M unit :=
  let* available := check_mmdc in
  (if negb available then
     print "Error: mermaid-cli (mmdc) not found." ;;
     print "Install it with:" ;;
     print "  macOS: brew install mermaid-cli" ;;
     print "  Other: npm install -g @mermaid-js/mermaid-cli" ;;
     print "" ;;
     print "Note: mermaid-cli requires Chrome/Chromium. After installation, run:" ;;
     print "  npx puppeteer browsers install chrome-headless-shell" ;;
     sys_exit 1
   else ret tt) ;;
  let* mmd_files := find_mmd_files "." in
  (match mmd_files with
   | [] => print "No .mmd files found." ;; sys_exit 0
   | _ => ret tt
   end) ;;
  print "Scanning for Mermaid files (.mmd)..." ;;
  print ("Found " ++ Str.of_nat (length mmd_files) ++ " file(s)" ++ Str.nl) ;;
  let* t := process_files mmd_files (mkTally 0 0 0 []) in
  report t.

End Script.

(** ** Vocabulary of the statements *)

(** The lines printed when the renderer is unavailable. *)
Definition install_instructions : list string :=
  ["Error: mermaid-cli (mmdc) not found.";
   "Install it with:";
   "  macOS: brew install mermaid-cli";
   "  Other: npm install -g @mermaid-js/mermaid-cli";
   "";
   "Note: mermaid-cli requires Chrome/Chromium. After installation, run:";
   "  npx puppeteer browsers install chrome-headless-shell"].

(** The argument vectors of the two kinds of launch. *)
Definition version_query : list string := ["mmdc"; "--version"].

Definition render_argv (mmd_file : string) : list string :=
  ["mmdc"; "-i"; mmd_file; "-o"; Str.replace mmd_file ".mmd" ".svg"].

(** A name of a directory entry: not empty and without a separator. *)
Definition name_okb (n : string) : bool :=
  negb (String.eqb n "") && negb (Str.contains "/" n).

(** Every name in the tree is the name of a directory entry. *)
Fixpoint tree_okb (t : tree) : bool :=
  match t with
  | Dir files subdirs =>
      forallb name_okb files
      && forallb (fun sub : string * tree => name_okb sub.1 && tree_okb sub.2) subdirs
  end.

(** [subtree_at t ds t']: following the directory names [ds] down from [t]
    leads to the directory [t']. *)
Inductive subtree_at : tree -> list string -> tree -> Prop :=
| subtree_here t : subtree_at t [] t
| subtree_below files subdirs d t1 ds t' :
    (d, t1) ∈ subdirs -> subtree_at t1 ds t' ->
    subtree_at (Dir files subdirs) (d :: ds) t'.

(** The directory an [os.walk] entry is about. *)
Definition entry_root (e : walk_entry) : string := e.1.1.

Definition entry_dirs (e : walk_entry) : list string := e.1.2.

Definition entry_files (e : walk_entry) : list string := e.2.

(** A directory path: not empty and not ending with a separator. *)
Definition dir_path (p : string) : Prop := p <> "" /\ Str.endswith p "/" = false.

(** The names below a directory, each after a separator. *)
Fixpoint below (ds : list string) : string :=
  match ds with
  | [] => ""
  | d :: ds' => ("/" ++ d ++ below ds')%string
  end.

(** The directory of the entry holds a binary the cache walk accepts: a
    headless shell, or a plain browser when the directory's path does not
    contain [headless]. *)
Definition holds_candidate (e : walk_entry) : bool :=
  bool_decide ("chrome-headless-shell" ∈ entry_files e)
  || (bool_decide ("chrome" ∈ entry_files e)
      && negb (Str.contains "headless" (entry_root e))).

(** The cache root the walk of [find_chrome_path] starts from. *)
Definition cache_root (host : Host) : string :=
  Path.join (home_dir host) [".cache"; "puppeteer"; "chrome"].

(** How many files a tally accounts for. *)
Definition counted (t : tally) : nat :=
  generated t + updated t + skipped t + length (errors t).

(** [t'] is [t] with one more file in exactly one of the four categories. *)
Definition counted_once (t t' : tally) : Prop :=
  t' = mkTally (generated t + 1) (updated t) (skipped t) (errors t)
  \/ t' = mkTally (generated t) (updated t + 1) (skipped t) (errors t)
  \/ t' = mkTally (generated t) (updated t) (skipped t + 1) (errors t)
  \/ exists e, t' = mkTally (generated t) (updated t) (skipped t) (errors t ++ [e]).

(** No counter of [t'] is below its value in [t], and the errors of [t] are
    the first errors of [t']. *)
Definition grows (t t' : tally) : Prop :=
  generated t <= generated t' /\ updated t <= updated t' /\ skipped t <= skipped t'
  /\ errors t `prefix_of` errors t'.

(** The tally after a failed render of [mmd_file] is recorded. *)
Definition record_error (t : tally) (mmd_file stderr : string) : tally :=
  mkTally (generated t) (updated t) (skipped t) (errors t ++ [(mmd_file, Some stderr)]).

(** The failures that no handler of the script catches: those of the
    operating system, on examining a file or starting the program, and that
    of decoding what the program wrote. *)
Definition os_failure (e : exn) : Prop :=
  e = FileNotFoundError \/ e = PermissionError \/ e = UnicodeDecodeError.

Definition is_walk (ev : event) : Prop :=
  match ev with
  | EvWalk _ => True
  | EvRun _ _ _ => False
  end.

(** What a render invocation returns for each way the launch can end. *)
Definition render_result (outcome : launch) : res (bool * option string) :=
  match outcome with
  | Exited code _ err => if (code =? 0)%Z then Ret (true, None) else Ret (false, Some err)
  | Garbled _ => Raise UnicodeDecodeError
  | NotFound => Raise FileNotFoundError
  | Denied => Raise PermissionError
  end.

(** What the loop body returns after a render invocation, [t_ok] being the
    tally of a success. *)
Definition step_result (t t_ok : tally) (mmd_file : string) (outcome : launch) : res tally :=
  match outcome with
  | Exited code _ err => if (code =? 0)%Z then Ret t_ok else Ret (record_error t mmd_file err)
  | Garbled _ => Raise UnicodeDecodeError
  | NotFound => Raise FileNotFoundError
  | Denied => Raise PermissionError
  end.

(** A state with further events, and with a further printed line. *)
Definition with_events (st : proc) (evs : list event) : proc :=
  mkProc (p_fs st) (p_out st) (p_trace st ++ evs).

Definition printed (st : proc) (line : string) : proc :=
  mkProc (p_fs st) (p_out st ++ [line]) (p_trace st).

Definition with_lines (st : proc) (lines : list string) : proc :=
  mkProc (p_fs st) (p_out st ++ lines) (p_trace st).

(** The value [find_mmd_files(root_dir)] returns on a file system. *)
Definition discovered (fs : FS) (root_dir : string) : list string :=
  sorted (collect_mmd match fs_tree fs root_dir with
                      | Some t => walk keep_dir root_dir t
                      | None => []
                      end).

(** The state in which [main] enters its loop, from the state [st] discovery
    leaves. *)
Definition loop_entry (st : proc) (mmd_files : list string) : proc :=
  mkProc (p_fs st)
         (p_out st ++ ["Scanning for Mermaid files (.mmd)...";
                       ("Found " ++ Str.of_nat (length mmd_files) ++ " file(s)" ++ Str.nl)%string])
         (p_trace st).

(** ** A sample world *)

Module Sample.

Definition tree0 : tree :=
  Dir ["README.md"; "arch.mmd"]
      [("docs", Dir ["flow.mmd"; "flow.svg"; "seq.mmd"; "seq.svg"] []);
       ("node_modules", Dir ["junk.mmd"] [("pkg", Dir ["deep.mmd"] [])]);
       ("zeta", Dir ["late.mmd"] [])].

Definition mtime0 (p : string) : option Z :=
  if String.eqb p "./arch.mmd" then Some 100%Z
  else if String.eqb p "./docs/flow.mmd" then Some 200%Z
  else if String.eqb p "./docs/flow.svg" then Some 150%Z
  else if String.eqb p "./docs/seq.mmd" then Some 300%Z
  else if String.eqb p "./docs/seq.svg" then Some 300%Z
  else if String.eqb p "./zeta/late.mmd" then Some 50%Z
  else None.

Definition fs0 : FS :=
  mkFS mtime0 (fun p => if String.eqb p "." then Some tree0 else None) (fun _ => []).

Definition host0 : Host := mkHost "/home/dev" {[ "PATH" := "/usr/bin" ]}.

(** The renderer is installed and fails on one diagram. *)
Definition spawn0 (fs : FS) (argv : list string) (env : environment) : launch * FS :=
  if bool_decide (argv = version_query) then (Exited 0 "11.4.2" "", fs)
  else if bool_decide (argv = render_argv "./docs/flow.mmd")
  then (Exited 1 "" "Error: Failed to launch the browser process", fs)
  else (Exited 0 "" "", fs).

(** The renderer is not installed. *)
Definition spawn_absent (fs : FS) (argv : list string) (env : environment) : launch * FS :=
  (NotFound, fs).

Definition st0 : proc := mkProc fs0 [] [].

(** A tree without diagrams. *)
Definition fs_bare : FS :=
  mkFS (fun _ => None)
       (fun p => if String.eqb p "." then Some (Dir ["README.md"] [("src", Dir ["a.py"] [])])
                 else None)
       (fun _ => []).

Definition st_bare : proc := mkProc fs_bare [] [].

(** A directory whose own name contains the source extension. *)
Definition fs_dotted : FS :=
  mkFS (fun _ => None)
       (fun p => if String.eqb p "." then Some (Dir [] [("notes.mmd", Dir ["flow.mmd"] [])])
                 else None)
       (fun _ => []).

(** A browser cache with a plain browser in one version directory and a
    headless shell in a later one; no system browser, no match of the
    patterns. *)
Definition cache_tree : tree :=
  Dir [] [("linux-1", Dir ["chrome"] []);
          ("linux-2", Dir ["chrome-headless-shell"] [])].

Definition fs_cache : FS :=
  mkFS (fun p => if String.eqb p "/home/dev/.cache/puppeteer/chrome" then Some 10%Z else None)
       (fun p => if String.eqb p "/home/dev/.cache/puppeteer/chrome" then Some cache_tree
                 else None)
       (fun _ => []).

Definition st_cache : proc := mkProc fs_cache [] [].

(** Two versions of a system-wide cache entry match the first pattern. *)
Definition fs_glob2 : FS :=
  mkFS (fun _ => None) (fun _ => None)
       (fun pat =>
          if String.eqb pat
               "/home/dev/.cache/puppeteer/chrome/*/chrome-mac-arm64/Google Chrome.app/Contents/MacOS/Google Chrome"
          then ["/home/dev/.cache/puppeteer/chrome/mac-121/chrome-mac-arm64/Google Chrome.app/Contents/MacOS/Google Chrome";
                "/home/dev/.cache/puppeteer/chrome/mac-131/chrome-mac-arm64/Google Chrome.app/Contents/MacOS/Google Chrome";
                "/home/dev/.cache/puppeteer/chrome/mac-127/chrome-mac-arm64/Google Chrome.app/Contents/MacOS/Google Chrome"]
          else []).

Definition st_glob2 : proc := mkProc fs_glob2 [] [].

End Sample.

(** ** Further vocabulary *)

(** The argument vectors of the launches among some events, in order. *)
Definition launches (evs : list event) : list (list string) :=
  omap (fun ev => match ev with
                  | EvRun argv _ _ => Some argv
                  | EvWalk _ => None
                  end) evs.

(** The source can be examined, its output exists and is not older. *)
Definition up_to_dateb (fs : FS) (mmd_file : string) : bool :=
  match fs_mtime fs mmd_file, fs_mtime fs (Str.replace mmd_file ".mmd" ".svg") with
  | Some mmd_mtime, Some svg_mtime => (mmd_mtime <=? svg_mtime)%Z
  | _, _ => false
  end.

(** The names of a directory are pairwise distinct, throughout the tree. *)
Fixpoint tree_distinctb (t : tree) : bool :=
  match t with
  | Dir files subdirs =>
      bool_decide (NoDup files) && bool_decide (NoDup (map fst subdirs))
      && forallb (fun sub : string * tree => tree_distinctb sub.2) subdirs
  end.

(** The paths collected below one sub-directory. *)
Definition collect_sub (top : string) (sub : string * tree) : list string :=
  if keep_dir sub.1 then collect_mmd (walk keep_dir (Path.join2 top sub.1) sub.2) else [].

(** The lines [print_error] prints for the lines of an error text. *)
Definition error_listing (mmd_file : string) (error_lines : list string) : list string :=
  ("  " ++ mmd_file ++ ":")%string
  :: map (fun line => ("    " ++ line)%string) (take 3 error_lines)
  ++ (if (3 <? length error_lines)%nat
      then [("    ... (" ++ Str.of_nat (length error_lines - 3) ++ " more lines)")%string]
      else []).

(** The renderer renders the files of a list well: launched for one of them
    whose source can be examined, it exits with status 0 having written text,
    and leaves its output with a time that is not before the source's; it
    changes the time of no source of the list, and no output of a file of the
    list is removed or gets an earlier time.  Nothing is asked about any
    other path. *)
Definition renders_well (spawn : FS -> list string -> environment -> launch * FS)
    (mmd_files : list string) : Prop :=
  forall fs mmd_file env,
    mmd_file ∈ mmd_files ->
    is_Some (fs_mtime fs mmd_file) ->
    let r := spawn fs (render_argv mmd_file) env in
    (exists out err, r.1 = Exited 0 out err)
    /\ (forall g, g ∈ mmd_files -> fs_mtime r.2 g = fs_mtime fs g)
    /\ (exists svg_mtime,
          fs_mtime r.2 (Str.replace mmd_file ".mmd" ".svg") = Some svg_mtime
          /\ forall m, fs_mtime fs mmd_file = Some m -> (m <= svg_mtime)%Z)
    /\ (forall g o,
          g ∈ mmd_files ->
          fs_mtime fs (Str.replace g ".mmd" ".svg") = Some o ->
          exists o', fs_mtime r.2 (Str.replace g ".mmd" ".svg") = Some o' /\ (o <= o')%Z).

(** ** Further sample worlds *)

Module Cases.

(** A listed source that cannot be examined (a dangling link), between a
    source that is up to date and one without output. *)
Definition fs_ghost : FS :=
  mkFS (fun p => if String.eqb p "./a.mmd" then Some 10%Z
                 else if String.eqb p "./a.svg" then Some 20%Z
                 else if String.eqb p "./ghost.svg" then Some 5%Z
                 else if String.eqb p "./z.mmd" then Some 1%Z
                 else None)
       (fun p => if String.eqb p "." then Some (Dir ["z.mmd"; "ghost.mmd"; "a.mmd"] [])
                 else None)
       (fun _ => []).

Definition st_ghost : proc := mkProc fs_ghost [] [].

(** The renderer answers the version query and cannot be launched after. *)
Definition spawn_vanishing (fs : FS) (argv : list string) (env : environment) : launch * FS :=
  if bool_decide (argv = version_query) then (Exited 0 "11.4.2" "", fs)
  else (NotFound, fs).

(** The renderer is installed but may not be executed. *)
Definition spawn_denied (fs : FS) (argv : list string) (env : environment) : launch * FS :=
  (Denied, fs).

(** A renderer that writes its output: the output path gets the time 1000. *)
Definition spawn_writing (fs : FS) (argv : list string) (env : environment) : launch * FS :=
  match argv with
  | [_; "-i"; _; "-o"; svg_file] =>
      (Exited 0 "" "",
       mkFS (fun p => if String.eqb p svg_file then Some 1000%Z else fs_mtime fs p)
            (fs_tree fs) (fs_glob fs))
  | _ => (Exited 0 "11.4.2" "", fs)
  end.

(** Every diagram has an output that is not older. *)
Definition fs_fresh : FS :=
  mkFS (fun p => if String.eqb p "./a.mmd" then Some 10%Z
                 else if String.eqb p "./a.svg" then Some 10%Z
                 else if String.eqb p "./d/b.mmd" then Some 30%Z
                 else if String.eqb p "./d/b.svg" then Some 45%Z
                 else None)
       (fun p => if String.eqb p "." then Some (Dir ["a.mmd"; "a.svg"]
                                                   [("d", Dir ["b.svg"; "b.mmd"] [])])
                 else None)
       (fun _ => []).

Definition st_fresh : proc := mkProc fs_fresh [] [].

(** A renderer that gives its output the later of the source's time and the
    output's earlier time. *)
Definition spawn_touch (fs : FS) (argv : list string) (env : environment) : launch * FS :=
  match argv with
  | [_; _; mmd_file; _; svg_file] =>
      let m := default 0%Z (fs_mtime fs mmd_file) in
      let o := default m (fs_mtime fs svg_file) in
      (Exited 0 "" "",
       mkFS (fun p => if String.eqb p svg_file then Some (Z.max m o) else fs_mtime fs p)
            (fs_tree fs) (fs_glob fs))
  | _ => (Exited 0 "11.4.2" "", fs)
  end.

(** The tree of [Sample.tree0] as another listing of the same directories
    could give it. *)
Definition tree0_reordered : tree :=
  Dir ["arch.mmd"; "README.md"]
      [("zeta", Dir ["late.mmd"] []);
       ("node_modules", Dir ["junk.mmd"] [("pkg", Dir ["deep.mmd"] [])]);
       ("docs", Dir ["seq.svg"; "seq.mmd"; "flow.svg"; "flow.mmd"] [])].

Definition st_reordered : proc :=
  mkProc (mkFS Sample.mtime0 (fun p => if String.eqb p "." then Some tree0_reordered else None)
               (fun _ => [])) [] [].

(** The renderer answers the version query, and what it writes when it
    fails on one diagram is not text. *)
Definition spawn_garbled_render (fs : FS) (argv : list string) (env : environment)
    : launch * FS :=
  if bool_decide (argv = version_query) then (Exited 0 "11.4.2" "", fs)
  else if bool_decide (argv = render_argv "./docs/flow.mmd") then (Garbled 1, fs)
  else (Exited 0 "" "", fs).


(** The cache of [Sample.fs_cache] with its two version directories listed
    in the other order. *)
Definition fs_cache_reordered : FS :=
  mkFS (fun p => if String.eqb p "/home/dev/.cache/puppeteer/chrome" then Some 10%Z else None)
       (fun p => if String.eqb p "/home/dev/.cache/puppeteer/chrome"
                 then Some (Dir [] [("linux-2", Dir ["chrome-headless-shell"] []);
                                    ("linux-1", Dir ["chrome"] [])])
                 else None)
       (fun _ => []).

Definition st_cache_reordered : proc := mkProc fs_cache_reordered [] [].

End Cases.

(** ** Running computations *)

Lemma bind_ret_run {A B} (m : M A) (k : A -> M B) st a st' :
  m st = (Ret a, st') -> bind m k st = k a st'.
Proof. intros H. unfold bind. now rewrite H. Qed.

Lemma bind_raise_run {A B} (m : M A) (k : A -> M B) st e st' :
  m st = (Raise e, st') -> bind m k st = (Raise e, st').
Proof. intros H. unfold bind. now rewrite H. Qed.

Lemma os_path_exists_run p st :
  os_path_exists p st = (Ret (bool_decide (is_Some (fs_mtime (p_fs st) p))), st).
Proof. reflexivity. Qed.

Lemma needs_generation_run mmd_file st :
  needs_generation mmd_file st =
  match fs_mtime (p_fs st) (Str.replace mmd_file ".mmd" ".svg") with
  | None => (Ret (true, "missing"), st)
  | Some svg_mtime =>
      match fs_mtime (p_fs st) mmd_file with
      | None => (Raise FileNotFoundError, st)
      | Some mmd_mtime =>
          if (mmd_mtime >? svg_mtime)%Z then (Ret (true, "outdated"), st)
          else (Ret (false, "up_to_date"), st)
      end
  end.
Proof.
  unfold needs_generation, bind, os_path_exists, os_path_getmtime, ret.
  destruct (fs_mtime (p_fs st) (Str.replace mmd_file ".mmd" ".svg")) as [o|] eqn:Ho.
  - rewrite bool_decide_eq_true_2 by eauto. cbn [negb].
    destruct (fs_mtime (p_fs st) mmd_file) as [s|]; [|reflexivity].
    rewrite Ho. destruct (s >? o)%Z; reflexivity.
  - rewrite bool_decide_eq_false_2 by (intros [? ?]; discriminate). reflexivity.
Qed.

(** ** Freshness evaluation *)

(** C1.  The verdict is [missing] exactly when the output path does not exist;
    when source and output both exist it is [outdated] exactly when the
    source's modification time is strictly greater, and [up_to_date] in
    particular when the two times are equal. *)
Theorem freshness_verdict (st : proc) (mmd_file : string) :
  let svg_file := Str.replace mmd_file ".mmd" ".svg" in
  ((exists b, (needs_generation mmd_file st).1 = Ret (b, "missing"))
   <-> fs_mtime (p_fs st) svg_file = None)
  /\ (fs_mtime (p_fs st) svg_file = None ->
      needs_generation mmd_file st = (Ret (true, "missing"), st))
  /\ (forall mmd_mtime svg_mtime : Z,
        fs_mtime (p_fs st) mmd_file = Some mmd_mtime ->
        fs_mtime (p_fs st) svg_file = Some svg_mtime ->
        ((exists b, (needs_generation mmd_file st).1 = Ret (b, "outdated"))
         <-> (mmd_mtime > svg_mtime)%Z)
        /\ ((mmd_mtime > svg_mtime)%Z ->
            needs_generation mmd_file st = (Ret (true, "outdated"), st))
        /\ ((mmd_mtime <= svg_mtime)%Z ->
            needs_generation mmd_file st = (Ret (false, "up_to_date"), st))
        /\ (mmd_mtime = svg_mtime ->
            needs_generation mmd_file st = (Ret (false, "up_to_date"), st))).
Proof.
  intros svg_file. rewrite needs_generation_run. fold svg_file.
  split; [|split].
  - destruct (fs_mtime (p_fs st) svg_file) as [o|] eqn:Ho.
    + split; [|discriminate]. intros [b Hb].
      destruct (fs_mtime (p_fs st) mmd_file) as [s|]; simpl in Hb; [|discriminate].
      destruct (s >? o)%Z; simpl in Hb; discriminate.
    + split; [reflexivity|]. intros _. exists true. reflexivity.
  - intros ->. reflexivity.
  - intros s o Hs Ho. rewrite Ho, Hs.
    destruct (Z.gtb_spec s o) as [Hgt|Hle].
    + repeat split; try reflexivity; try lia. intros _. exists true. reflexivity.
    + repeat split; try reflexivity; try lia. intros [b Hb]. simpl in Hb. discriminate.
Qed.

Lemma freshness_verdict_witness :
  needs_generation "./docs/seq.mmd" Sample.st0 = (Ret (false, "up_to_date"), Sample.st0)
  /\ needs_generation "./docs/flow.mmd" Sample.st0 = (Ret (true, "outdated"), Sample.st0)
  /\ needs_generation "./arch.mmd" Sample.st0 = (Ret (true, "missing"), Sample.st0).
Proof.
  split; [|split].
  - apply (freshness_verdict Sample.st0 "./docs/seq.mmd") with (mmd_mtime := 300%Z) (svg_mtime := 300%Z);
      reflexivity.
  - apply (freshness_verdict Sample.st0 "./docs/flow.mmd") with (mmd_mtime := 200%Z) (svg_mtime := 150%Z);
      [reflexivity | reflexivity | lia].
  - apply (freshness_verdict Sample.st0 "./arch.mmd"). reflexivity.
Defined.

(** ** Output path *)

(** C2.  The output path is obtained by rewriting every occurrence of the
    source extension: for the discovered source [./notes.mmd/flow.mmd] the
    script computes [./notes.svg/flow.svg], which is not the source path with
    only its extension replaced, and that is the path the run asks the
    renderer to write. *)
Theorem output_path_rewrites_every_occurrence :
  (find_mmd_files "." (mkProc Sample.fs_dotted [] [])).1 = Ret ["./notes.mmd/flow.mmd"]
  /\ Str.replace "./notes.mmd/flow.mmd" ".mmd" ".svg" = "./notes.svg/flow.svg"
  /\ Str.replace "./notes.mmd/flow.mmd" ".mmd" ".svg" <> "./notes.mmd/flow.svg"
  /\ p_trace (main Sample.host0 Sample.spawn0 (mkProc Sample.fs_dotted [] [])).2
     = [EvRun ["mmdc"; "--version"] (environ Sample.host0) (Exited 0 "11.4.2" "");
        EvWalk ".";
        EvRun ["mmdc"; "-i"; "./notes.mmd/flow.mmd"; "-o"; "./notes.svg/flow.svg"]
              (environ Sample.host0) (Exited 0 "" "")].
Proof.
  split; [|split; [|split]]; try (vm_compute; reflexivity).
  vm_compute. discriminate.
Qed.

(** ** Availability check *)

Section Availability.

Variable host : Host.
Variable spawn : FS -> list string -> environment -> launch * FS.

Lemma subprocess_run_run argv env st :
  subprocess_run spawn argv env st =
  (match (spawn (p_fs st) argv env).1 with
   | Exited code out err =>
       if (code =? 0)%Z then Ret (out, err) else Raise (CalledProcessError code err)
   | Garbled _ => Raise UnicodeDecodeError
   | NotFound => Raise FileNotFoundError
   | Denied => Raise PermissionError
   end, launched spawn st argv env).
Proof.
  unfold subprocess_run, launched.
  destruct (spawn (p_fs st) argv env) as [[code out err|code| |] fs']; cbn [fst snd];
    [destruct (code =? 0)%Z|..]; reflexivity.
Qed.

Lemma check_mmdc_run st :
  check_mmdc host spawn st =
  (match (spawn (p_fs st) version_query (environ host)).1 with
   | Exited code _ _ => Ret (code =? 0)%Z
   | Garbled _ => Raise UnicodeDecodeError
   | NotFound => Ret false
   | Denied => Raise PermissionError
   end, launched spawn st version_query (environ host)).
Proof.
  unfold check_mmdc, try_except, bind. fold version_query.
  rewrite subprocess_run_run.
  destruct (spawn (p_fs st) version_query (environ host)).1 as [code out err|code| |];
    [destruct (code =? 0)%Z|..]; reflexivity.
Qed.


End Availability.




(** ** Sorting *)

(** The order of [sorted] is the lexicographic order on character codes. *)
Lemma string_le_lexicographic (c1 c2 : ascii) (s1 s2 : string) :
  String.le "" s1
  /\ ~ String.le (String c1 s1) ""
  /\ (String.le (String c1 s1) (String c2 s2)
      <-> (N_of_ascii c1 < N_of_ascii c2)%N \/ (c1 = c2 /\ String.le s1 s2)).
Proof.
  unfold String.le, String.leb. split; [|split].
  - now destruct s1.
  - cbn. tauto.
  - cbn [String.compare]. unfold Ascii.compare.
    destruct (N.compare_spec (N_of_ascii c1) (N_of_ascii c2)) as [Heq|Hlt|Hgt].
    + assert (c1 = c2) as -> by (rewrite <- (ascii_N_embedding c1), Heq; apply ascii_N_embedding).
      split; [auto|]. intros [Hlt|[_ H]]; [lia | exact H].
    + split; [auto|]. intros _. exact I.
    + split; [intros []|]. intros [Hlt|[-> _]]; lia.
Qed.

Lemma sorted_perm (l : list string) : sorted l ≡ₚ l.
Proof. apply merge_sort_Permutation. Qed.

Lemma sorted_strongly (l : list string) : StronglySorted String.le (sorted l).
Proof. apply (StronglySorted_merge_sort String.le). Qed.

Lemma sorted_nil_inv (l : list string) : sorted l = [] -> l = [].
Proof.
  intros H. apply Permutation_nil_r. rewrite <- H. symmetry. apply sorted_perm.
Qed.

Lemma strongly_sorted_last (l : list string) (p : string) :
  StronglySorted String.le l -> last l = Some p -> forall q, q ∈ l -> String.le q p.
Proof.
  induction 1 as [|x l Hs IH Hx]; intros Hl q Hq.
  - inversion Hq.
  - destruct l as [|y l'].
    + cbn in Hl. injection Hl as <-. apply list_elem_of_singleton in Hq as ->. reflexivity.
    + rewrite last_cons_cons in Hl. apply elem_of_cons in Hq as [->|Hq].
      * rewrite Forall_forall in Hx. apply Hx. apply last_Some_elem_of. exact Hl.
      * now apply IH.
Qed.

(** The last element of a sorted non-empty list: it exists, is one of the
    elements and is the greatest of them. *)
Lemma last_sorted (x : string) (l : list string) :
  exists p, last (sorted (x :: l)) = Some p /\ p ∈ x :: l
            /\ forall q, q ∈ x :: l -> String.le q p.
Proof.
  destruct (last (sorted (x :: l))) as [p|] eqn:Hl.
  - exists p. split; [reflexivity|]. split.
    + rewrite <- (sorted_perm (x :: l)). now apply last_Some_elem_of.
    + intros q Hq. apply (strongly_sorted_last (sorted (x :: l))); auto using sorted_strongly.
      now rewrite (sorted_perm (x :: l)).
  - apply last_None in Hl. apply sorted_nil_inv in Hl. discriminate.
Qed.

(** ** Helper-executable discovery and render invocation, step by step *)

Lemma with_events_nil st : with_events st [] = st.
Proof. destruct st. unfold with_events. cbn. now rewrite app_nil_r. Qed.

Lemma with_events_app st evs1 evs2 :
  with_events (with_events st evs1) evs2 = with_events st (evs1 ++ evs2).
Proof. unfold with_events. cbn. now rewrite app_assoc. Qed.

Lemma first_existing_run paths st :
  first_existing paths st
  = (Ret (List.find (fun p => bool_decide (is_Some (fs_mtime (p_fs st) p))) paths), st).
Proof.
  induction paths as [|p paths IH]; [reflexivity|].
  cbn [first_existing List.find]. unfold bind. rewrite os_path_exists_run.
  destruct (bool_decide (is_Some (fs_mtime (p_fs st) p))); [reflexivity | exact IH].
Qed.

Lemma first_glob_none patterns st :
  Forall (fun pat => fs_glob (p_fs st) pat = []) patterns ->
  first_glob patterns st = (Ret None, st).
Proof.
  induction 1 as [|pat patterns Hpat _ IH]; [reflexivity|].
  cbn [first_glob]. unfold bind, glob_glob. now rewrite Hpat.
Qed.

Lemma first_glob_some pre pat post st :
  Forall (fun pat => fs_glob (p_fs st) pat = []) pre ->
  fs_glob (p_fs st) pat <> [] ->
  exists p, first_glob (pre ++ pat :: post) st = (Ret (Some p), st)
            /\ p ∈ fs_glob (p_fs st) pat
            /\ forall q, q ∈ fs_glob (p_fs st) pat -> String.le q p.
Proof.
  intros Hpre Hpat. induction Hpre as [|pat' pre Hpat' _ IH].
  - cbn [app first_glob]. unfold bind, glob_glob.
    destruct (fs_glob (p_fs st) pat) as [|x l]; [contradiction|].
    destruct (last_sorted x l) as (p & -> & Hin & Hmax). exists p. auto.
  - destruct IH as (p & Hrun & Hp). exists p. split; [|exact Hp].
    cbn [app first_glob]. unfold bind, glob_glob. now rewrite Hpat'.
Qed.

Lemma first_glob_quiet patterns st : exists r, first_glob patterns st = (Ret r, st).
Proof.
  induction patterns as [|pat patterns IH]; [eexists; reflexivity|].
  cbn [first_glob]. unfold bind, glob_glob.
  destruct (fs_glob (p_fs st) pat) as [|x l]; [exact IH|].
  destruct (last_sorted x l) as (p & -> & _). eexists; reflexivity.
Qed.

Lemma os_walk_run keep top st :
  os_walk keep top st
  = (Ret match fs_tree (p_fs st) top with
         | Some t => walk keep top t
         | None => []
         end, with_events st [EvWalk top]).
Proof. reflexivity. Qed.

Lemma first_cached_quiet bases st :
  exists r evs, first_cached bases st = (Ret r, with_events st evs) /\ Forall is_walk evs.
Proof.
  revert st. induction bases as [|base bases IH]; intros st.
  - exists None, []. rewrite with_events_nil. auto.
  - cbn [first_cached]. unfold bind. rewrite os_path_exists_run.
    destruct (bool_decide (is_Some (fs_mtime (p_fs st) base))); [|apply IH].
    rewrite os_walk_run.
    destruct (scan_cache _) as [p|].
    + exists (Some p), [EvWalk base]. split; [reflexivity|]. repeat constructor.
    + destruct (IH (with_events st [EvWalk base])) as (r & evs & -> & Hevs).
      exists r, ([EvWalk base] ++ evs). rewrite with_events_app. split; [reflexivity|].
      constructor; [exact I | exact Hevs].
Qed.

Section Steps.

Variable host : Host.
Variable spawn : FS -> list string -> environment -> launch * FS.

Lemma find_chrome_path_quiet st :
  exists c evs, find_chrome_path host st = (Ret c, with_events st evs) /\ Forall is_walk evs.
Proof.
  unfold find_chrome_path, bind. rewrite first_existing_run.
  destruct (List.find _ system_chrome_paths) as [p|].
  - exists (Some p), []. rewrite with_events_nil. auto.
  - destruct (first_glob_quiet (puppeteer_cache_paths (home_dir host)) st) as [[p|] ->].
    + exists (Some p), []. rewrite with_events_nil. auto.
    + apply first_cached_quiet.
Qed.

Lemma generate_svg_run mmd_file st c st1 :
  find_chrome_path host st = (Ret c, st1) ->
  generate_svg host spawn mmd_file st
  = (render_result (spawn (p_fs st1) (render_argv mmd_file) (child_env host c)).1,
     launched spawn st1 (render_argv mmd_file) (child_env host c)).
Proof.
  intros Hc. unfold generate_svg. rewrite (bind_ret_run _ _ _ _ _ Hc).
  unfold try_except, bind. fold (render_argv mmd_file). rewrite subprocess_run_run.
  unfold render_result.
  destruct (spawn (p_fs st1) (render_argv mmd_file) (child_env host c)).1 as [code out err|code| |];
    [destruct (code =? 0)%Z|..]; reflexivity.
Qed.

Lemma print_run line st : print line st = (Ret tt, printed st line).
Proof. reflexivity. Qed.

Lemma render_step_run mmd_file line t t_ok st c st1 :
  find_chrome_path host (printed st line) = (Ret c, st1) ->
  render_step host spawn mmd_file line t t_ok st
  = (step_result t t_ok mmd_file
       (spawn (p_fs st1) (render_argv mmd_file) (child_env host c)).1,
     launched spawn st1 (render_argv mmd_file) (child_env host c)).
Proof.
  intros Hc. unfold render_step.
  rewrite (bind_ret_run _ _ _ _ _ (print_run line st)).
  unfold bind. rewrite (generate_svg_run _ _ _ _ Hc).
  unfold render_result, step_result, record_error.
  destruct (spawn _ _ _).1 as [code out err|code| |]; [destruct (code =? 0)%Z|..]; reflexivity.
Qed.

(** One iteration of the main loop, by the state of the two files. *)
Lemma process_file_unfold mmd_file t st :
  let svg_file := Str.replace mmd_file ".mmd" ".svg" in
  process_file host spawn mmd_file t st
  = match fs_mtime (p_fs st) svg_file with
    | None =>
        render_step host spawn mmd_file ("Generating: " ++ svg_file) t
          (mkTally (generated t + 1) (updated t) (skipped t) (errors t)) st
    | Some svg_mtime =>
        match fs_mtime (p_fs st) mmd_file with
        | None => (Raise FileNotFoundError, st)
        | Some mmd_mtime =>
            if (mmd_mtime >? svg_mtime)%Z
            then render_step host spawn mmd_file
                   ("Updating: " ++ svg_file ++ " (source is newer)") t
                   (mkTally (generated t) (updated t + 1) (skipped t) (errors t)) st
            else (Ret (mkTally (generated t) (updated t) (skipped t + 1) (errors t)), st)
        end
    end.
Proof.
  intros svg_file. unfold process_file. unfold bind at 1. rewrite needs_generation_run.
  fold svg_file.
  destruct (fs_mtime (p_fs st) svg_file) as [o|]; [|reflexivity].
  destruct (fs_mtime (p_fs st) mmd_file) as [m|]; [|reflexivity].
  destruct (m >? o)%Z; reflexivity.
Qed.

Lemma render_argv_inj f f' : render_argv f' = render_argv f -> f' = f.
Proof. unfold render_argv. intros H. now injection H. Qed.

Lemma render_step_spec mmd_file line t t_ok st :
  exists evs,
    p_trace (render_step host spawn mmd_file line t t_ok st).2 = p_trace st ++ evs
    /\ match (render_step host spawn mmd_file line t t_ok st).1 with
       | Ret t' => t' = t_ok \/ exists err, t' = record_error t mmd_file err
       | Raise e => os_failure e
       end
    /\ forall f env code out err,
         EvRun (render_argv f) env (Exited code out err) ∈ evs -> code <> 0%Z ->
         (render_step host spawn mmd_file line t t_ok st).1
         = Ret (record_error t mmd_file err) /\ f = mmd_file.
Proof.
  destruct (find_chrome_path_quiet (printed st line)) as (c & walks & Hc & Hwalks).
  rewrite (render_step_run _ _ _ _ _ _ _ Hc). cbn [fst snd].
  set (outcome := (spawn _ _ _).1).
  exists (walks ++ [EvRun (render_argv mmd_file) (child_env host c) outcome]).
  split; [|split].
  - unfold launched, with_events, printed. cbn. now rewrite app_assoc.
  - unfold step_result, os_failure. destruct outcome as [code out err|code| |]; eauto.
    destruct (code =? 0)%Z; eauto.
  - intros f env code out err Hin Hne.
    apply elem_of_app in Hin as [Hin|Hin].
    + rewrite Forall_forall in Hwalks. destruct (Hwalks _ Hin).
    + apply list_elem_of_singleton in Hin.
      assert (Hf : render_argv f = render_argv mmd_file) by congruence.
      assert (Ho : outcome = Exited code out err) by congruence.
      rewrite Ho. unfold step_result.
      apply Z.eqb_neq in Hne. rewrite Hne. split; [reflexivity|].
      now apply render_argv_inj.
Qed.

(** What one iteration of the main loop does: it extends the trace, counts
    the file once or fails with an exception nothing catches, and a render that
    exits non-zero is recorded with its error text. *)
Lemma process_file_spec mmd_file t st :
  exists evs,
    p_trace (process_file host spawn mmd_file t st).2 = p_trace st ++ evs
    /\ match (process_file host spawn mmd_file t st).1 with
       | Ret t' => counted_once t t'
       | Raise e => os_failure e
       end
    /\ forall f env code out err,
         EvRun (render_argv f) env (Exited code out err) ∈ evs -> code <> 0%Z ->
         (process_file host spawn mmd_file t st).1
         = Ret (record_error t mmd_file err) /\ f = mmd_file.
Proof.
  assert (Hstep : forall line t_ok,
    counted_once t t_ok ->
    exists evs,
      p_trace (render_step host spawn mmd_file line t t_ok st).2 = p_trace st ++ evs
      /\ match (render_step host spawn mmd_file line t t_ok st).1 with
         | Ret t' => counted_once t t'
         | Raise e => os_failure e
         end
      /\ forall f env code out err,
           EvRun (render_argv f) env (Exited code out err) ∈ evs -> code <> 0%Z ->
           (render_step host spawn mmd_file line t t_ok st).1
           = Ret (record_error t mmd_file err) /\ f = mmd_file).
  { intros line t_ok Hok.
    destruct (render_step_spec mmd_file line t t_ok st) as (evs & Htr & Hres & Hev).
    exists evs. split; [exact Htr|]. split; [|exact Hev].
    destruct (render_step _ _ _ _ _ _ _).1 as [t'|e]; [|exact Hres].
    destruct Hres as [->|[err ->]]; [exact Hok|].
    right. right. right. eexists. reflexivity. }
  assert (Hquiet : forall r : res tally,
    match r with Ret t' => counted_once t t' | Raise e => os_failure e end ->
    exists evs,
      p_trace (r, st).2 = p_trace st ++ evs
      /\ match (r, st).1 with
         | Ret t' => counted_once t t'
         | Raise e => os_failure e
         end
      /\ forall f env code out err,
           EvRun (render_argv f) env (Exited code out err) ∈ evs -> code <> 0%Z ->
           (r, st).1 = Ret (record_error t mmd_file err) /\ f = mmd_file).
  { intros r Hr. exists []. cbn [fst snd]. rewrite app_nil_r.
    split; [reflexivity|]. split; [exact Hr|]. intros f env code out err Hin. inversion Hin. }
  rewrite process_file_unfold.
  destruct (fs_mtime (p_fs st) (Str.replace mmd_file ".mmd" ".svg")) as [o|].
  - destruct (fs_mtime (p_fs st) mmd_file) as [m|].
    + destruct (m >? o)%Z.
      * apply Hstep. right. left. reflexivity.
      * apply Hquiet. right. right. left. reflexivity.
    + apply Hquiet. left. reflexivity.
  - apply Hstep. left. reflexivity.
Qed.

Lemma counted_once_counted t t' : counted_once t t' -> counted t' = counted t + 1 /\ grows t t'.
Proof.
  unfold counted, grows.
  intros [->|[->|[->|[e ->]]]]; cbn; rewrite ?length_app; cbn;
    (split; [lia|]); repeat split; try lia; try reflexivity.
  now apply prefix_app_r.
Qed.

Lemma grows_trans t1 t2 t3 : grows t1 t2 -> grows t2 t3 -> grows t1 t3.
Proof.
  unfold grows. intros (? & ? & ? & ?) (? & ? & ? & ?).
  repeat split; try lia. etrans; eassumption.
Qed.

Lemma process_files_cons mmd_file rest t st :
  process_files host spawn (mmd_file :: rest) t st
  = match process_file host spawn mmd_file t st with
    | (Ret t1, st1) => process_files host spawn rest t1 st1
    | (Raise e, st1) => (Raise e, st1)
    end.
Proof. reflexivity. Qed.

Lemma process_files_app pre post t st :
  process_files host spawn (pre ++ post) t st
  = match process_files host spawn pre t st with
    | (Ret t1, st1) => process_files host spawn post t1 st1
    | (Raise e, st1) => (Raise e, st1)
    end.
Proof.
  revert t st. induction pre as [|f pre IH]; intros t st; [reflexivity|].
  cbn [app]. rewrite !process_files_cons.
  destruct (process_file host spawn f t st) as [[t1|e] st1]; [apply IH | reflexivity].
Qed.

(** The loop invariant: the trace is extended; when the loop ends every file
    has been counted once and nothing was uncounted, and each render that
    exited non-zero is among the errors recorded; the loop is left early only
    by an exception nothing catches. *)
Lemma process_files_spec mmd_files t st :
  exists evs,
    p_trace (process_files host spawn mmd_files t st).2 = p_trace st ++ evs
    /\ match (process_files host spawn mmd_files t st).1 with
       | Ret t' =>
           counted t' = counted t + length mmd_files /\ grows t t'
           /\ exists new, errors t' = errors t ++ new
                /\ forall f env code out err,
                     EvRun (render_argv f) env (Exited code out err) ∈ evs ->
                     code <> 0%Z -> (f, Some err) ∈ new
       | Raise e => os_failure e
       end.
Proof.
  revert t st. induction mmd_files as [|f rest IH]; intros t st.
  - exists []. cbn. rewrite app_nil_r. split; [reflexivity|].
    split; [unfold counted; lia|]. split; [unfold grows; repeat split; lia || reflexivity|].
    exists []. rewrite app_nil_r. split; [reflexivity|]. intros ????? Hin. inversion Hin.
  - rewrite process_files_cons.
    destruct (process_file_spec f t st) as (evs1 & Htr1 & Hres1 & Hev1).
    destruct (process_file host spawn f t st) as [[t1|e] st1]; cbn [fst snd] in *.
    + destruct (IH t1 st1) as (evs2 & Htr2 & Hres2).
      exists (evs1 ++ evs2). split; [rewrite Htr2, Htr1; now rewrite app_assoc|].
      destruct (process_files host spawn rest t1 st1) as [[t'|e] st']; cbn [fst snd] in *;
        [|exact Hres2].
      destruct Hres2 as (Hcount & Hgrow & new & Hnew & Hrec).
      apply counted_once_counted in Hres1 as [Hc1 Hg1].
      split; [cbn [length]; lia|]. split; [eapply grows_trans; eassumption|].
      destruct Hg1 as (_ & _ & _ & [new1 Hnew1]).
      exists (new1 ++ new). split; [rewrite Hnew, Hnew1; now rewrite app_assoc|].
      intros f' env code out err Hin Hne.
      apply elem_of_app in Hin as [Hin|Hin].
      * destruct (Hev1 _ _ _ _ _ Hin Hne) as [Ht1 ->].
        injection Ht1 as ->. unfold record_error in Hnew1. cbn in Hnew1.
        apply app_inv_head in Hnew1 as <-. apply elem_of_app. left. now left.
      * apply elem_of_app. right. eauto.
    + exists evs1. split; [exact Htr1 | exact Hres1].
Qed.

(** *** Reporting and the run as a whole *)

Lemma with_lines_app st l1 l2 : with_lines (with_lines st l1) l2 = with_lines st (l1 ++ l2).
Proof. unfold with_lines. cbn. now rewrite app_assoc. Qed.

Lemma with_lines_nil st : with_lines st [] = st.
Proof. destruct st. unfold with_lines. cbn. now rewrite app_nil_r. Qed.

Lemma for_each_prints {A} (body : A -> unit -> M unit) (l : list A) :
  (forall x st, exists lines, body x tt st = (Ret tt, with_lines st lines)) ->
  forall st, exists lines, for_each l body tt st = (Ret tt, with_lines st lines).
Proof.
  intros Hbody. induction l as [|x l IH]; intros st.
  - exists []. now rewrite with_lines_nil.
  - cbn [for_each]. unfold bind. destruct (Hbody x st) as [l1 ->].
    destruct (IH (with_lines st l1)) as [l2 ->]. exists (l1 ++ l2).
    now rewrite with_lines_app.
Qed.

Lemma print_error_prints e st : exists lines, print_error e st = (Ret tt, with_lines st lines).
Proof.
  destruct e as [mmd_file error]. unfold print_error.
  rewrite (bind_ret_run _ _ _ _ _ (print_run _ st)).
  set (error_lines := Str.split _ _).
  destruct (for_each_prints (fun line (_ : unit) => print ("    " ++ line)) (take 3 error_lines))
    with (st := printed st ("  " ++ mmd_file ++ ":")) as [l1 H1].
  { intros x st'. exists [("    " ++ x)%string]. reflexivity. }
  rewrite (bind_ret_run _ _ _ _ _ H1).
  destruct (3 <? length error_lines)%nat.
  - eexists. rewrite print_run. unfold printed, with_lines. cbn.
    rewrite <- !app_assoc. reflexivity.
  - eexists. unfold ret, printed, with_lines. cbn. rewrite <- !app_assoc. reflexivity.
Qed.

(** [report] prints the summary line first and always exits: with status 0
    when there are no errors and with status 1 otherwise. *)
Lemma report_run t st :
  exists more,
    report t st
    = (Raise (SystemExit (match errors t with [] => 0 | _ => 1 end)),
       with_lines st (summary_line t :: more)).
Proof.
  unfold report. rewrite (bind_ret_run _ _ _ _ _ (print_run _ st)).
  destruct (errors t) as [|e errs] eqn:He.
  - exists []. reflexivity.
  - unfold bind at 1. unfold bind at 1. rewrite print_run.
    unfold bind at 1.
    destruct (for_each_prints (fun e (_ : unit) => print_error e) (e :: errs))
      with (st := printed (printed st (summary_line t)) (Str.nl ++ "Errors:")) as [l1 ->].
    { intros x st'. apply print_error_prints. }
    destruct (chrome_error (e :: errs)).
    + eexists. unfold bind, print, sys_exit, raise, with_lines, printed. cbn.
      rewrite <- !app_assoc. cbn. reflexivity.
    + eexists. unfold bind, ret, sys_exit, raise, with_lines, printed. cbn.
      rewrite <- !app_assoc. cbn. reflexivity.
Qed.

Lemma find_mmd_files_run root_dir st :
  find_mmd_files root_dir st
  = (Ret (discovered (p_fs st) root_dir), with_events st [EvWalk root_dir]).
Proof. reflexivity. Qed.

(** The run, stage by stage. *)
Lemma main_run st :
  main host spawn st
  = match check_mmdc host spawn st with
    | (Raise e, st1) => (Raise e, st1)
    | (Ret false, st1) => (Raise (SystemExit 1), with_lines st1 install_instructions)
    | (Ret true, st1) =>
        let st2 := with_events st1 [EvWalk "."] in
        match discovered (p_fs st1) "." with
        | [] => (Raise (SystemExit 0), printed st2 "No .mmd files found.")
        | mmd_files =>
            match process_files host spawn mmd_files (mkTally 0 0 0 [])
                               (loop_entry st2 mmd_files) with
            | (Ret t, st3) => report t st3
            | (Raise e, st3) => (Raise e, st3)
            end
        end
    end.
Proof.
  unfold main. unfold bind at 1.
  destruct (check_mmdc host spawn st) as [[[|]|e] st1]; [| |reflexivity].
  - unfold bind at 1. cbn [negb]. unfold ret at 1.
    unfold bind at 1. rewrite find_mmd_files_run.
    destruct (discovered (p_fs st1) ".") as [|f files]; [reflexivity|].
    unfold bind at 1. unfold ret at 1.
    rewrite (bind_ret_run _ _ _ _ _ (print_run _ _)).
    rewrite (bind_ret_run _ _ _ _ _ (print_run _ _)).
    replace (printed (printed (with_events st1 [EvWalk "."]) _) _)
      with (loop_entry (with_events st1 [EvWalk "."]) (f :: files)).
    + reflexivity.
    + unfold loop_entry, printed. cbn [p_fs p_out p_trace].
      now rewrite <- app_assoc.
  - unfold bind, print, sys_exit, raise, with_lines, install_instructions. cbn.
    rewrite <- !app_assoc. reflexivity.
Qed.

End Steps.

(** ** A tree without source files *)

(** C9, as the script behaves.  When the availability check succeeds and
    discovery finds no source file, the run prints the notice and exits with
    status 0, and its only launch of the external program is the version
    query of the availability check: nothing is rendered. *)
Theorem no_sources_run (host : Host)
    (spawn : FS -> list string -> environment -> launch * FS) (st : proc) :
  let query := spawn (p_fs st) version_query (environ host) in
  (check_mmdc host spawn st).1 = Ret true ->
  discovered query.2 "." = [] ->
  main host spawn st
  = (Raise (SystemExit 0),
     mkProc query.2 (p_out st ++ ["No .mmd files found."])
            (p_trace st ++ [EvRun version_query (environ host) query.1; EvWalk "."]))
  /\ exit_status (main host spawn st).1 = 0%Z.
Proof.
  intros query Hc Hd.
  assert (Hm : main host spawn st
    = (Raise (SystemExit 0),
       mkProc query.2 (p_out st ++ ["No .mmd files found."])
              (p_trace st ++ [EvRun version_query (environ host) query.1; EvWalk "."]))).
  { rewrite main_run. rewrite check_mmdc_run in Hc |- *. cbn [fst] in Hc. rewrite Hc.
    cbn zeta. unfold launched at 1. cbn [p_fs]. fold query. rewrite Hd.
    unfold printed, with_events, launched. cbn [p_fs p_out p_trace]. fold query.
    now rewrite <- app_assoc. }
  split; [exact Hm|]. now rewrite Hm.
Qed.

Lemma no_sources_run_witness :
  exit_status (main Sample.host0 Sample.spawn0 Sample.st_bare).1 = 0%Z
  /\ p_out (main Sample.host0 Sample.spawn0 Sample.st_bare).2 = ["No .mmd files found."].
Proof.
  destruct (no_sources_run Sample.host0 Sample.spawn0 Sample.st_bare) as [Hm Hx];
    [vm_compute; reflexivity | vm_compute; reflexivity |].
  split; [exact Hx|]. rewrite Hm. reflexivity.
Defined.

(** C9, as stated, fails twice on the tree of [Sample.fs_bare], which holds
    no source file: with the renderer absent the run exits with status 1; and
    with the renderer present the run does launch it, for the version
    query. *)
Lemma no_sources_run_counterexample :
  discovered Sample.fs_bare "." = []
  /\ exit_status (main Sample.host0 Sample.spawn_absent Sample.st_bare).1 = 1%Z
  /\ p_trace (main Sample.host0 Sample.spawn0 Sample.st_bare).2
     = [EvRun version_query (environ Sample.host0) (Exited 0 "11.4.2" ""); EvWalk "."].
Proof. split; [|split]; vm_compute; reflexivity. Qed.

(** ** The summary counts *)

(** C10.  The loop counts every file exactly once: one iteration adds one to
    exactly one of the four categories, and a loop that runs to its end has
    counted as many more files as it was given, without lowering any counter
    or dropping an error; it is left early only by an exception nothing
    catches, and then no summary is printed.  In a run that reaches the loop, the
    counts of the printed summary therefore add up to the number of
    discovered files. *)
Theorem tally_accounts_for_every_file (host : Host)
    (spawn : FS -> list string -> environment -> launch * FS) :
  (forall mmd_file t st,
      match (process_file host spawn mmd_file t st).1 with
      | Ret t' => counted_once t t'
      | Raise e => os_failure e
      end)
  /\ (forall mmd_files t st,
        match (process_files host spawn mmd_files t st).1 with
        | Ret t' =>
            generated t' + updated t' + skipped t' + length (errors t')
            = generated t + updated t + skipped t + length (errors t) + length mmd_files
            /\ grows t t'
        | Raise e => os_failure e
        end)
  /\ (forall st,
        (check_mmdc host spawn st).1 = Ret true ->
        let st1 := (check_mmdc host spawn st).2 in
        let mmd_files := discovered (p_fs st1) "." in
        mmd_files <> [] ->
        match process_files host spawn mmd_files (mkTally 0 0 0 [])
                            (loop_entry (with_events st1 [EvWalk "."]) mmd_files) with
        | (Ret t, st3) =>
            generated t + updated t + skipped t + length (errors t) = length mmd_files
            /\ exists more,
                 p_out (main host spawn st).2 = p_out st3 ++ summary_line t :: more
        | (Raise e, st3) => os_failure e /\ main host spawn st = (Raise e, st3)
        end).
Proof.
  split; [|split].
  - intros f t st. destruct (process_file_spec host spawn f t st) as (evs & _ & H & _). exact H.
  - intros files t st. destruct (process_files_spec host spawn files t st) as (evs & _ & H).
    destruct (process_files host spawn files t st).1 as [t'|e]; [|exact H].
    destruct H as (Hc & Hg & _). split; [exact Hc | exact Hg].
  - intros st Hc st1 files Hne. rewrite main_run.
    destruct (check_mmdc host spawn st) as [r st1'] eqn:Hrun.
    cbn [fst] in Hc. subst r. cbn [snd] in st1. subst st1. cbn zeta. fold files.
    destruct files as [|f files'] eqn:Hfiles; [contradiction|]. rewrite <- Hfiles.
    destruct (process_files_spec host spawn files (mkTally 0 0 0 [])
                (loop_entry (with_events st1' [EvWalk "."]) files)) as (evs & _ & H).
    destruct (process_files host spawn files _ _) as [[t|e] st3]; cbn [fst] in H.
    + destruct H as (Hcount & _). unfold counted in Hcount. cbn in Hcount.
      split; [exact Hcount|].
      destruct (report_run t st3) as [more ->]. exists more. reflexivity.
    + split; [exact H | reflexivity].
Qed.

Lemma tally_accounts_for_every_file_witness :
  exists t st3,
    process_files Sample.host0 Sample.spawn0 (discovered Sample.fs0 ".") (mkTally 0 0 0 [])
      (loop_entry (with_events (check_mmdc Sample.host0 Sample.spawn0 Sample.st0).2
                               [EvWalk "."]) (discovered Sample.fs0 "."))
    = (Ret t, st3)
    /\ generated t + updated t + skipped t + length (errors t) = 4.
Proof.
  pose proof (proj2 (proj2 (tally_accounts_for_every_file Sample.host0 Sample.spawn0))
                Sample.st0) as H.
  cbn zeta in H.
  assert (Hc : (check_mmdc Sample.host0 Sample.spawn0 Sample.st0).1 = Ret true)
    by (vm_compute; reflexivity).
  assert (Hne : discovered (p_fs (check_mmdc Sample.host0 Sample.spawn0 Sample.st0).2) "." <> [])
    by (vm_compute; discriminate).
  specialize (H Hc Hne).
  change (p_fs (check_mmdc Sample.host0 Sample.spawn0 Sample.st0).2) with Sample.fs0 in H.
  destruct (process_files Sample.host0 Sample.spawn0 _ _ _) as [[t|e] st3] eqn:Hrun.
  - exists t, st3. split; [reflexivity|]. destruct H as [Hcount _]. rewrite Hcount.
    vm_compute. reflexivity.
  - exfalso. vm_compute in Hrun. discriminate.
Defined.

(** ** A render that fails *)

Section RenderFailure.

Variable host : Host.
Variable spawn : FS -> list string -> environment -> launch * FS.



End RenderFailure.




(** ** Paths of directory entries *)

Lemma tree_ind' (P : tree -> Prop) :
  (forall files subdirs, Forall (fun sub => P sub.2) subdirs -> P (Dir files subdirs)) ->
  forall t, P t.
Proof.
  intros Hdir. fix IH 1. intros [files subdirs]. apply Hdir.
  induction subdirs as [|[d t'] subdirs IHs]; constructor; [apply IH | exact IHs].
Qed.

Lemma str_app_cons c (a b : string) : (String c a ++ b)%string = String c (a ++ b).
Proof. reflexivity. Qed.

Lemma str_app_nil_r (a : string) : (a ++ "")%string = a.
Proof. induction a as [|x a IH]; [reflexivity | now rewrite str_app_cons, IH]. Qed.

Lemma string_app_assoc (a b c : string) : ((a ++ b) ++ c = a ++ (b ++ c))%string.
Proof. induction a as [|x a IH]; [reflexivity | now rewrite !str_app_cons, IH]. Qed.

Lemma string_app_nil_inv (a b : string) : (a ++ b)%string = "" -> a = "" /\ b = "".
Proof. destruct a; [auto | rewrite str_app_cons; discriminate]. Qed.

Lemma prefix_mmd_app (c : ascii) (s : string) :
  String.prefix ".mmd" (String c s) = false ->
  String.prefix ".mmd" (String c s ++ ".mmd") = false.
Proof.
  destruct s as [|c2 [|c3 [|c4 s4]]]; intros H;
    rewrite ?str_app_cons; change ("" ++ ".mmd")%string with ".mmd";
    cbn [String.prefix] in *;
    repeat match goal with
           | |- context [ascii_dec ?a ?b] => destruct (ascii_dec a b)
           | H : context [ascii_dec ?a ?b] |- _ => destruct (ascii_dec a b)
           end; subst; try reflexivity; try discriminate.
  destruct s4; discriminate.
Qed.

(** When the source extension occurs nowhere else in the path, the output
    path is the source path with its extension replaced. *)
Lemma replace_extension (stem : string) :
  Str.contains ".mmd" stem = false ->
  Str.replace (stem ++ ".mmd") ".mmd" ".svg" = (stem ++ ".svg")%string.
Proof.
  unfold Str.replace. induction stem as [|c stem IH]; intros Hno; [reflexivity|].
  cbn [Str.contains] in Hno. apply orb_false_iff in Hno as [Hp Hno].
  rewrite !str_app_cons. cbn [Str.replace_from].
  pose proof (prefix_mmd_app _ _ Hp) as Hp'. rewrite str_app_cons in Hp'.
  now rewrite Hp', (IH Hno).
Qed.

Lemma contains_slash_cons c s :
  Str.contains "/" (String c s) = Ascii.eqb c "/" || Str.contains "/" s.
Proof.
  cbn [Str.contains String.prefix].
  destruct (ascii_dec "/" c) as [<-|Hne].
  - cbn. now destruct s.
  - destruct (Ascii.eqb_spec c "/") as [->|_]; [contradiction | reflexivity].
Qed.

Lemma name_okb_spec n :
  name_okb n = true <-> n <> "" /\ Str.contains "/" n = false.
Proof.
  unfold name_okb. rewrite andb_true_iff, !negb_true_iff. split.
  - intros [Hne Hs]. split; [|exact Hs]. intros ->. discriminate.
  - intros [Hne Hs]. split; [|exact Hs]. now apply String.eqb_neq.
Qed.

(** A name without separator does not start with one and does not end with
    one. *)
Lemma slash_free_startswith n : Str.contains "/" n = false -> Str.startswith n "/" = false.
Proof.
  destruct n as [|c n]; [reflexivity|].
  unfold Str.startswith. cbn [Str.contains]. now intros [? _]%orb_false_iff.
Qed.

Lemma slash_free_endswith n : Str.contains "/" n = false -> Str.endswith n "/" = false.
Proof.
  induction n as [|c n IH]; [reflexivity|].
  rewrite contains_slash_cons. intros [Hc Hn]%orb_false_iff.
  cbn [Str.endswith]. rewrite (IH Hn), orb_false_r.
  apply String.eqb_neq. intros [= -> _]. discriminate.
Qed.

Lemma endswith_slash_app (a b : string) :
  b <> "" -> Str.endswith (a ++ b) "/" = Str.endswith b "/".
Proof.
  intros Hb. induction a as [|c a IH]; [reflexivity|].
  rewrite str_app_cons. cbn [Str.endswith]. rewrite IH.
  replace (String.eqb (String c (a ++ b)) "/") with false; [reflexivity|].
  symmetry. apply String.eqb_neq. intros [= _ H]. apply string_app_nil_inv in H as [_ H].
  contradiction.
Qed.

Lemma join2_name a n :
  dir_path a -> name_okb n = true ->
  Path.join2 a n = (a ++ "/" ++ n)%string /\ dir_path (Path.join2 a n).
Proof.
  intros [Ha He] [Hn Hs]%name_okb_spec.
  assert (Hj : Path.join2 a n = (a ++ "/" ++ n)%string).
  { unfold Path.join2. rewrite (slash_free_startswith _ Hs), He.
    apply String.eqb_neq in Ha. now rewrite Ha. }
  split; [exact Hj|]. rewrite Hj. split.
  - intros [_ H]%string_app_nil_inv. discriminate.
  - rewrite endswith_slash_app by discriminate.
    change ("/" ++ n)%string with (String "/" n).
    cbn [Str.endswith]. rewrite (slash_free_endswith _ Hs), orb_false_r.
    apply String.eqb_neq. intros [= ->]. contradiction.
Qed.

Lemma join_names top ds :
  dir_path top -> Forall (fun d => name_okb d = true) ds ->
  Path.join top ds = (top ++ below ds)%string.
Proof.
  intros Htop Hds. revert top Htop. induction Hds as [|d ds Hd _ IH]; intros top Htop.
  - cbn. now rewrite str_app_nil_r.
  - unfold Path.join. cbn [fold_left]. fold (Path.join (Path.join2 top d) ds).
    destruct (join2_name top d Htop Hd) as [Hj Hp].
    rewrite (IH _ Hp), Hj. cbn [below]. now rewrite !string_app_assoc.
Qed.

Lemma name_split (d1 d2 r1 r2 : string) :
  Str.contains "/" d1 = false -> Str.contains "/" d2 = false ->
  (r1 = "" \/ exists r, r1 = String "/" r) ->
  (r2 = "" \/ exists r, r2 = String "/" r) ->
  (d1 ++ r1 = d2 ++ r2)%string -> d1 = d2 /\ r1 = r2.
Proof.
  revert d2. induction d1 as [|c d1 IH]; intros [|c2 d2] H1 H2 Hr1 Hr2 Heq;
    rewrite ?str_app_cons in Heq; change ("" ++ ?x)%string with x in Heq.
  - auto.
  - exfalso. rewrite contains_slash_cons in H2. apply orb_false_iff in H2 as [Hc _].
    destruct Hr1 as [->|[r ->]]; [discriminate|]. injection Heq as <- _.
    discriminate.
  - exfalso. rewrite contains_slash_cons in H1. apply orb_false_iff in H1 as [Hc _].
    destruct Hr2 as [->|[r ->]]; [discriminate|]. injection Heq as -> _.
    discriminate.
  - injection Heq as -> Heq.
    rewrite contains_slash_cons in H1, H2.
    apply orb_false_iff in H1 as [_ H1]. apply orb_false_iff in H2 as [_ H2].
    destruct (IH d2 H1 H2 Hr1 Hr2 Heq) as [-> ->]. auto.
Qed.

Lemma below_shape ds : below ds = "" \/ exists r, below ds = String "/" r.
Proof. destruct ds; cbn; eauto. Qed.

Lemma below_inj ds1 ds2 :
  Forall (fun d => name_okb d = true) ds1 -> Forall (fun d => name_okb d = true) ds2 ->
  below ds1 = below ds2 -> ds1 = ds2.
Proof.
  intros H1. revert ds2. induction H1 as [|d1 ds1 Hd1 _ IH]; intros ds2 H2 Heq.
  - destruct ds2; [reflexivity | discriminate].
  - destruct H2 as [|d2 ds2 Hd2 H2]; [discriminate|].
    cbn in Heq. injection Heq as Heq.
    apply name_okb_spec in Hd1 as [_ Hs1]. apply name_okb_spec in Hd2 as [_ Hs2].
    destruct (name_split _ _ _ _ Hs1 Hs2 (below_shape ds1) (below_shape ds2) Heq) as [-> Hb].
    f_equal. now apply IH.
Qed.

(** Distinct chains of names give distinct paths. *)
Lemma join_inj top ds1 ds2 :
  dir_path top ->
  Forall (fun d => name_okb d = true) ds1 -> Forall (fun d => name_okb d = true) ds2 ->
  Path.join top ds1 = Path.join top ds2 -> ds1 = ds2.
Proof.
  intros Htop H1 H2. rewrite !join_names by assumption.
  intros Heq%(inj (String.app top)). now apply below_inj.
Qed.

(** ** What the walk visits *)

Lemma join_cons top d ds : Path.join top (d :: ds) = Path.join (Path.join2 top d) ds.
Proof. reflexivity. Qed.

Lemma join_snoc top ds n : Path.join top (ds ++ [n]) = Path.join2 (Path.join top ds) n.
Proof. unfold Path.join. now rewrite fold_left_app. Qed.

Lemma elem_of_flat_map {A B} (f : A -> list B) (l : list A) (y : B) :
  y ∈ flat_map f l <-> exists x, x ∈ l /\ y ∈ f x.
Proof.
  rewrite list_elem_of_In, in_flat_map. split; intros (x & Hx & Hy); exists x.
  - now rewrite !list_elem_of_In.
  - now rewrite <- !list_elem_of_In.
Qed.

Lemma elem_of_filter_bool {A} (f : A -> bool) (l : list A) (x : A) :
  x ∈ List.filter f l <-> x ∈ l /\ f x = true.
Proof. now rewrite !list_elem_of_In, filter_In. Qed.

(** The entries of a walk are exactly the directories reached through kept
    names, each with its pruned sub-directory names and its files. *)
Lemma walk_entry_iff keep top t e :
  e ∈ walk keep top t
  <-> exists ds files subdirs,
        subtree_at t ds (Dir files subdirs)
        /\ Forall (fun d => keep d = true) ds
        /\ e = (Path.join top ds, List.filter keep (map fst subdirs), files).
Proof.
  split.
  - revert top. induction t as [files subdirs IH] using tree_ind'. intros top He.
    cbn [walk] in He. apply elem_of_cons in He as [->|He].
    + exists [], files, subdirs. split; [constructor|]. split; [constructor | reflexivity].
    + apply elem_of_flat_map in He as ([d t1] & Hsub & He). cbn [fst snd] in He.
      destruct (keep d) eqn:Hd; [|inversion He].
      rewrite Forall_forall in IH. specialize (IH _ Hsub _ He).
      destruct IH as (ds & files' & subdirs' & Hat & Hkeep & ->).
      exists (d :: ds), files', subdirs'. split; [econstructor; eassumption|].
      split; [constructor; assumption | reflexivity].
  - intros (ds & files & subdirs & Hat & Hkeep & ->). revert top Hkeep.
    remember (Dir files subdirs) as t0 eqn:Ht0.
    induction Hat as [t|files' subdirs' d t1 ds t' Hsub Hat IH];
      intros top Hkeep; subst.
    + cbn [walk]. left.
    + cbn [walk]. right. apply elem_of_flat_map. exists (d, t1). split; [exact Hsub|].
      cbn [fst snd]. inversion Hkeep as [|? ? Hd Hds]; subst. rewrite Hd.
      rewrite join_cons. now apply IH.
Qed.

Lemma tree_okb_dir files subdirs :
  tree_okb (Dir files subdirs) = true
  <-> Forall (fun f => name_okb f = true) files
      /\ Forall (fun sub => name_okb sub.1 = true /\ tree_okb sub.2 = true) subdirs.
Proof.
  cbn [tree_okb]. rewrite andb_true_iff, !forallb_forall, !Forall_forall.
  split; intros [Hf Hs]; (split; [intros x Hx; apply Hf; now apply list_elem_of_In|]).
  - intros x Hx%list_elem_of_In. apply andb_true_iff. now apply Hs.
  - intros x Hx%list_elem_of_In. apply andb_true_iff. now apply Hs.
Qed.

Lemma subtree_at_ok t ds t' :
  tree_okb t = true -> subtree_at t ds t' ->
  Forall (fun d => name_okb d = true) ds /\ tree_okb t' = true.
Proof.
  intros Hok Hat. induction Hat as [t|files subdirs d t1 ds t' Hsub Hat IH].
  - split; [constructor | exact Hok].
  - apply tree_okb_dir in Hok as [_ Hs]. rewrite Forall_forall in Hs.
    destruct (Hs _ Hsub) as [Hd Ht1]. cbn [fst snd] in *.
    destruct (IH Ht1) as [Hds Ht']. split; [constructor; assumption | exact Ht'].
Qed.

Lemma keep_dir_skipped d : d ∈ skipped_dirs -> keep_dir d = false.
Proof. intros H. unfold keep_dir. now rewrite bool_decide_eq_true_2. Qed.

(** A directory below a skipped name is not the root of any entry. *)
Lemma walk_never_enters top t ds t' e :
  tree_okb t = true -> dir_path top -> subtree_at t ds t' ->
  (exists d, d ∈ ds /\ d ∈ skipped_dirs) ->
  e ∈ walk keep_dir top t -> entry_root e <> Path.join top ds.
Proof.
  intros Hok Htop Hat (d & Hd & Hskip) He Heq.
  apply walk_entry_iff in He as (ds' & files & subdirs & Hat' & Hkeep & ->).
  unfold entry_root in Heq. cbn [fst] in Heq.
  destruct (subtree_at_ok _ _ _ Hok Hat) as [Hds _].
  destruct (subtree_at_ok _ _ _ Hok Hat') as [Hds' _].
  apply join_inj in Heq; [|assumption..]. subst ds'.
  rewrite Forall_forall in Hkeep. specialize (Hkeep _ Hd).
  rewrite (keep_dir_skipped _ Hskip) in Hkeep. discriminate.
Qed.

(** What discovery collects: the files with the source extension in the
    directories reached through kept names. *)
Lemma collect_mmd_iff top t p :
  p ∈ collect_mmd (walk keep_dir top t)
  <-> exists ds files subdirs file,
        subtree_at t ds (Dir files subdirs)
        /\ Forall (fun d => keep_dir d = true) ds
        /\ file ∈ files /\ Str.endswith file ".mmd" = true
        /\ p = Path.join top (ds ++ [file]).
Proof.
  unfold collect_mmd. rewrite elem_of_flat_map. split.
  - intros (e & He & Hp). apply walk_entry_iff in He as (ds & files & subdirs & Hat & Hk & ->).
    cbn [mmd_of_entry] in Hp. apply list_elem_of_fmap in Hp as (file & -> & Hf).
    apply elem_of_filter_bool in Hf as [Hf Hext].
    exists ds, files, subdirs, file. rewrite join_snoc. auto.
  - intros (ds & files & subdirs & file & Hat & Hk & Hf & Hext & ->).
    exists (Path.join top ds, List.filter keep_dir (map fst subdirs), files). split.
    + apply walk_entry_iff. eauto 6.
    + cbn [mmd_of_entry]. rewrite join_snoc. apply list_elem_of_fmap. exists file.
      split; [reflexivity|]. now apply elem_of_filter_bool.
Qed.

Lemma discovery_never_lists top t ds files subdirs file :
  tree_okb t = true -> dir_path top -> subtree_at t ds (Dir files subdirs) ->
  (exists d, d ∈ ds /\ d ∈ skipped_dirs) -> file ∈ files ->
  Path.join top (ds ++ [file]) ∉ collect_mmd (walk keep_dir top t).
Proof.
  intros Hok Htop Hat (d & Hd & Hskip) Hfile Hin.
  apply collect_mmd_iff in Hin as (ds' & files' & subdirs' & file' & Hat' & Hk & Hf' & _ & Heq).
  destruct (subtree_at_ok _ _ _ Hok Hat) as [Hds Hdir].
  destruct (subtree_at_ok _ _ _ Hok Hat') as [Hds' Hdir'].
  apply tree_okb_dir in Hdir as [Hfiles _]. apply tree_okb_dir in Hdir' as [Hfiles' _].
  rewrite Forall_forall in Hfiles, Hfiles'.
  apply join_inj in Heq; [|assumption|apply Forall_app; auto..].
  apply app_inj_tail in Heq as [-> _].
  rewrite Forall_forall in Hk. specialize (Hk _ Hd).
  rewrite (keep_dir_skipped _ Hskip) in Hk. discriminate.
Qed.

(** ** Source discovery *)

(** C5.  In a tree whose names are names of directory entries, walked from a
    directory path, take any directory that lies below a directory named in
    the denylist, at whatever depth.  The walk never makes it the root of an
    entry, and no entry lists a denylisted name among the sub-directories to
    descend into; and none of its files is in the discovery result. *)
Theorem excluded_directories_are_pruned (st : proc) (top : string) (t : tree)
    (ds files : list string) (subdirs : list (string * tree)) :
  fs_tree (p_fs st) top = Some t ->
  tree_okb t = true ->
  dir_path top ->
  subtree_at t ds (Dir files subdirs) ->
  (exists d, d ∈ ds /\ d ∈ skipped_dirs) ->
  exists entries mmd_files,
    (os_walk keep_dir top st).1 = Ret entries
    /\ (find_mmd_files top st).1 = Ret mmd_files
    /\ (forall e, e ∈ entries ->
          entry_root e <> Path.join top ds
          /\ forall d, d ∈ entry_dirs e -> d ∉ skipped_dirs)
    /\ (forall file, file ∈ files -> Path.join top (ds ++ [file]) ∉ mmd_files).
Proof.
  intros Hfs Hok Htop Hat Hskip.
  exists (walk keep_dir top t), (sorted (collect_mmd (walk keep_dir top t))).
  rewrite os_walk_run, find_mmd_files_run. unfold discovered. rewrite Hfs. cbn [fst].
  split; [reflexivity|]. split; [reflexivity|]. split.
  - intros e He. split; [eapply walk_never_enters; eassumption|].
    apply walk_entry_iff in He as (ds' & files' & subdirs' & _ & _ & ->).
    unfold entry_dirs. cbn [fst snd]. intros d [_ Hd]%elem_of_filter_bool Hin.
    rewrite (keep_dir_skipped _ Hin) in Hd. discriminate.
  - intros file Hfile. rewrite (sorted_perm (collect_mmd (walk keep_dir top t))).
    eapply discovery_never_lists; eassumption.
Qed.

Lemma excluded_directories_are_pruned_witness :
  exists entries mmd_files,
    (os_walk keep_dir "." Sample.st0).1 = Ret entries
    /\ (find_mmd_files "." Sample.st0).1 = Ret mmd_files
    /\ (forall e, e ∈ entries ->
          entry_root e <> "./node_modules/pkg"
          /\ forall d, d ∈ entry_dirs e -> d ∉ skipped_dirs)
    /\ (forall file, file ∈ ["deep.mmd"] -> Path.join "." (["node_modules"; "pkg"] ++ [file]) ∉ mmd_files).
Proof.
  apply (excluded_directories_are_pruned Sample.st0 "." Sample.tree0
           ["node_modules"; "pkg"] ["deep.mmd"] []).
  - reflexivity.
  - vm_compute. reflexivity.
  - split; [discriminate | reflexivity].
  - unfold Sample.tree0.
    eapply subtree_below; [apply list_elem_of_further, list_elem_of_here|].
    eapply subtree_below; [apply list_elem_of_here|]. apply subtree_here.
  - exists "node_modules". split; [apply list_elem_of_here|].
    unfold skipped_dirs. do 3 apply list_elem_of_further. apply list_elem_of_here.
Defined.

(** C6.  Discovery returns a list that is sorted lexicographically and is a
    rearrangement of the matching paths, the files with the source extension
    in the directories reached through names outside the denylist; it leaves
    the file system as it was, a second discovery returns the same list, and
    so does any discovery over the same tree. *)
Theorem discovery_is_sorted_and_repeatable (st : proc) (top : string) :
  exists mmd_files,
    (find_mmd_files top st).1 = Ret mmd_files
    /\ StronglySorted String.le mmd_files
    /\ mmd_files ≡ₚ collect_mmd match fs_tree (p_fs st) top with
                                | Some t => walk keep_dir top t
                                | None => []
                                end
    /\ (forall t, fs_tree (p_fs st) top = Some t ->
        forall p, p ∈ mmd_files
                  <-> exists ds files subdirs file,
                        subtree_at t ds (Dir files subdirs)
                        /\ Forall (fun d => keep_dir d = true) ds
                        /\ file ∈ files /\ Str.endswith file ".mmd" = true
                        /\ p = Path.join top (ds ++ [file]))
    /\ p_fs (find_mmd_files top st).2 = p_fs st
    /\ (find_mmd_files top (find_mmd_files top st).2).1 = Ret mmd_files
    /\ (forall st', fs_tree (p_fs st') top = fs_tree (p_fs st) top ->
                    (find_mmd_files top st').1 = Ret mmd_files).
Proof.
  exists (discovered (p_fs st) top). rewrite !find_mmd_files_run. cbn [fst snd].
  split; [reflexivity|]. split; [apply sorted_strongly|]. split; [apply sorted_perm|].
  split; [|split; [reflexivity|split; [reflexivity|]]].
  - intros t Ht p. unfold discovered. rewrite Ht.
    rewrite (sorted_perm (collect_mmd (walk keep_dir top t))). apply collect_mmd_iff.
  - intros st' Heq. rewrite find_mmd_files_run. cbn [fst]. unfold discovered. now rewrite Heq.
Qed.

Lemma discovery_is_sorted_and_repeatable_witness :
  (find_mmd_files "." Sample.st0).1
  = Ret ["./arch.mmd"; "./docs/flow.mmd"; "./docs/seq.mmd"; "./zeta/late.mmd"]
  /\ (find_mmd_files "." (find_mmd_files "." Sample.st0).2).1
     = Ret ["./arch.mmd"; "./docs/flow.mmd"; "./docs/seq.mmd"; "./zeta/late.mmd"].
Proof.
  destruct (discovery_is_sorted_and_repeatable Sample.st0 ".")
    as (l & Hl & _ & _ & _ & _ & Hagain & _).
  assert (Hval : (find_mmd_files "." Sample.st0).1
                 = Ret ["./arch.mmd"; "./docs/flow.mmd"; "./docs/seq.mmd"; "./zeta/late.mmd"])
    by (vm_compute; reflexivity).
  split; [exact Hval|]. rewrite Hagain, <- Hl. exact Hval.
Defined.

(** ** Helper-executable discovery *)

Lemma find_first {A} (f : A -> bool) (pre : list A) (x : A) (post : list A) :
  Forall (fun y => f y = false) pre -> f x = true ->
  List.find f (pre ++ x :: post) = Some x.
Proof.
  intros Hpre Hx. induction Hpre as [|y pre Hy _ IH]; cbn [app List.find].
  - now rewrite Hx.
  - now rewrite Hy.
Qed.

Lemma find_nothing {A} (f : A -> bool) (l : list A) :
  Forall (fun y => f y = false) l -> List.find f l = None.
Proof. induction 1 as [|y l Hy _ IH]; cbn [List.find]; [reflexivity | now rewrite Hy]. Qed.

Lemma present_false (fs : FS) (p : string) :
  ~ is_Some (fs_mtime fs p) -> bool_decide (is_Some (fs_mtime fs p)) = false.
Proof. intros H. now apply bool_decide_eq_false_2. Qed.

(** The cache walk stops at the first entry holding a candidate; there a
    headless shell is taken if present, and the plain browser otherwise. *)
Lemma scan_cache_first pre e post :
  Forall (fun e' => holds_candidate e' = false) pre -> holds_candidate e = true ->
  scan_cache (pre ++ e :: post)
  = Some (Path.join (entry_root e)
            [if bool_decide ("chrome-headless-shell" ∈ entry_files e)
             then "chrome-headless-shell" else "chrome"]).
Proof.
  intros Hpre He. induction Hpre as [|[[root dirs] files] pre Hy _ IH]; cbn [app scan_cache].
  - destruct e as [[root dirs] files]. unfold holds_candidate, entry_files, entry_root in *.
    cbn [fst snd] in *.
    destruct (bool_decide ("chrome-headless-shell" ∈ files)); [reflexivity|].
    cbn [orb] in He. now rewrite He.
  - unfold holds_candidate, entry_files, entry_root in Hy. cbn [fst snd] in Hy.
    apply orb_false_iff in Hy as [-> ->]. exact IH.
Qed.

Lemma scan_cache_none entries :
  Forall (fun e' => holds_candidate e' = false) entries -> scan_cache entries = None.
Proof.
  induction 1 as [|[[root dirs] files] entries Hy _ IH]; [reflexivity|].
  cbn [scan_cache]. unfold holds_candidate, entry_files, entry_root in Hy. cbn [fst snd] in Hy.
  apply orb_false_iff in Hy as [-> ->]. exact IH.
Qed.

Lemma first_cached_run (host : Host) st :
  first_cached (puppeteer_direct_paths (home_dir host)) st
  = if bool_decide (is_Some (fs_mtime (p_fs st) (cache_root host)))
    then (Ret (scan_cache match fs_tree (p_fs st) (cache_root host) with
                          | Some t => walk (fun _ => true) (cache_root host) t
                          | None => []
                          end),
          with_events st [EvWalk (cache_root host)])
    else (Ret None, st).
Proof.
  unfold puppeteer_direct_paths. fold (cache_root host). cbn [first_cached].
  unfold bind. rewrite os_path_exists_run.
  destruct (bool_decide (is_Some (fs_mtime (p_fs st) (cache_root host)))); [|reflexivity].
  rewrite os_walk_run. now destruct (scan_cache _).
Qed.

(** What helper discovery does, strategy by strategy.  The strategies are
    tried in a fixed order and
    the first that finds something decides: the first system path that
    exists; else, for the first pattern with a match, the greatest of its
    matches; else, when the cache root exists, the binary of the first
    directory in the order of the walk that holds a headless shell or, its
    path not containing [headless], a plain browser, the headless shell being
    taken when that directory holds both; else nothing.  When nothing is
    found the render is launched with the inherited environment. *)
Theorem helper_discovery_order (host : Host)
    (spawn : FS -> list string -> environment -> launch * FS) (st : proc) :
  let present p := is_Some (fs_mtime (p_fs st) p) in
  let matches pat := fs_glob (p_fs st) pat in
  let entries := match fs_tree (p_fs st) (cache_root host) with
                 | Some t => walk (fun _ => true) (cache_root host) t
                 | None => []
                 end in
  (forall pre path post,
      system_chrome_paths = pre ++ path :: post ->
      Forall (fun p => ~ present p) pre -> present path ->
      find_chrome_path host st = (Ret (Some path), st))
  /\ (Forall (fun p => ~ present p) system_chrome_paths ->
      (forall pre pattern post,
          puppeteer_cache_paths (home_dir host) = pre ++ pattern :: post ->
          Forall (fun pat => matches pat = []) pre -> matches pattern <> [] ->
          exists path,
            find_chrome_path host st = (Ret (Some path), st)
            /\ path ∈ matches pattern
            /\ forall q, q ∈ matches pattern -> String.le q path)
      /\ (Forall (fun pat => matches pat = []) (puppeteer_cache_paths (home_dir host)) ->
          (~ present (cache_root host) -> find_chrome_path host st = (Ret None, st))
          /\ (present (cache_root host) ->
              find_chrome_path host st
              = (Ret (scan_cache entries), with_events st [EvWalk (cache_root host)])
              /\ (forall pre e post,
                    entries = pre ++ e :: post ->
                    Forall (fun e' => holds_candidate e' = false) pre ->
                    holds_candidate e = true ->
                    scan_cache entries
                    = Some (Path.join (entry_root e)
                              [if bool_decide ("chrome-headless-shell" ∈ entry_files e)
                               then "chrome-headless-shell" else "chrome"]))
              /\ (Forall (fun e' => holds_candidate e' = false) entries ->
                  scan_cache entries = None))))
  /\ (forall mmd_file st1,
        find_chrome_path host st = (Ret None, st1) ->
        generate_svg host spawn mmd_file st
        = (render_result (spawn (p_fs st1) (render_argv mmd_file) (environ host)).1,
           launched spawn st1 (render_argv mmd_file) (environ host))).
Proof.
  intros present matches entries. split; [|split].
  - intros pre path post Hsys Hpre Hpath.
    unfold find_chrome_path, bind. rewrite first_existing_run, Hsys.
    rewrite find_first; [reflexivity| |now apply bool_decide_eq_true_2].
    eapply Forall_impl; [exact Hpre|]. intros p Hp. now apply present_false.
  - intros Hsys.
    assert (Hfind : first_existing system_chrome_paths st = (Ret None, st)).
    { rewrite first_existing_run, find_nothing; [reflexivity|].
      eapply Forall_impl; [exact Hsys|]. intros p Hp. now apply present_false. }
    split.
    + intros pre pattern post Hpats Hpre Hpat.
      destruct (first_glob_some pre pattern post st Hpre Hpat) as (path & Hrun & Hin & Hmax).
      exists path. split; [|split; assumption].
      unfold find_chrome_path, bind. now rewrite Hfind, Hpats, Hrun.
    + intros Hglob.
      assert (Hrun : find_chrome_path host st
                     = first_cached (puppeteer_direct_paths (home_dir host)) st).
      { unfold find_chrome_path, bind. now rewrite Hfind, (first_glob_none _ _ Hglob). }
      rewrite Hrun, first_cached_run. split.
      * intros Hno. now rewrite (present_false _ _ Hno).
      * intros Hyes. rewrite bool_decide_eq_true_2 by exact Hyes.
        split; [reflexivity|]. split.
        -- intros pre e post -> Hpre He. now apply scan_cache_first.
        -- apply scan_cache_none.
  - intros mmd_file st1 Hnone. now rewrite (generate_svg_run _ _ _ _ _ _ Hnone).
Qed.

Lemma helper_discovery_order_witness :
  find_chrome_path Sample.host0 Sample.st_glob2
  = (Ret (Some "/home/dev/.cache/puppeteer/chrome/mac-131/chrome-mac-arm64/Google Chrome.app/Contents/MacOS/Google Chrome"),
     Sample.st_glob2).
Proof.
  destruct (helper_discovery_order Sample.host0 Sample.spawn0 Sample.st_glob2)
    as (_ & Hrest & _).
  destruct Hrest as [Hglob _].
  { unfold system_chrome_paths. repeat constructor; intros [? H]; discriminate H. }
  destruct (Hglob [] _ _ eq_refl) as (path & Hrun & Hin & Hmax).
  { constructor. }
  { vm_compute. discriminate. }
  rewrite Hrun. f_equal. f_equal. f_equal.
  apply (anti_symm String.le).
  - vm_compute in Hin.
    apply elem_of_cons in Hin as [->|Hin]; [vm_compute; exact I|].
    apply elem_of_cons in Hin as [->|Hin]; [vm_compute; exact I|].
    apply list_elem_of_singleton in Hin as ->. vm_compute. exact I.
  - apply (Hmax "/home/dev/.cache/puppeteer/chrome/mac-131/chrome-mac-arm64/Google Chrome.app/Contents/MacOS/Google Chrome").
    vm_compute. apply list_elem_of_further, list_elem_of_here.
Defined.

(** C7.  The walk of the cache root does not prefer the headless shell: it
    returns at the first directory that holds any candidate.  In the cache
    of [Sample.fs_cache] the walk reaches a directory holding a headless
    shell, yet the plain browser of the directory listed before it is
    returned; with the same two directories listed in the other order the
    headless shell is returned. *)
Theorem headless_shell_is_not_preferred :
  (os_walk (fun _ => true) (cache_root Sample.host0) Sample.st_cache).1
  = Ret [("/home/dev/.cache/puppeteer/chrome", ["linux-1"; "linux-2"], []);
         ("/home/dev/.cache/puppeteer/chrome/linux-1", [], ["chrome"]);
         ("/home/dev/.cache/puppeteer/chrome/linux-2", [], ["chrome-headless-shell"])]
  /\ (find_chrome_path Sample.host0 Sample.st_cache).1
     = Ret (Some "/home/dev/.cache/puppeteer/chrome/linux-1/chrome")
  /\ (find_chrome_path Sample.host0 Cases.st_cache_reordered).1
     = Ret (Some "/home/dev/.cache/puppeteer/chrome/linux-2/chrome-headless-shell").
Proof. repeat split; vm_compute; reflexivity. Qed.

(** ** The environment of the child *)

(** C8.  Every render is launched once, with the environment [child_env]
    builds from what helper discovery returned.  When a path was found, the
    two variables [PUPPETEER_EXECUTABLE_PATH] and [CHROME_PATH] hold it and
    every other variable is as inherited; when nothing was found the
    environment is the inherited one. *)
Theorem child_environment (host : Host)
    (spawn : FS -> list string -> environment -> launch * FS)
    (st : proc) (mmd_file : string) :
  exists chrome_path outcome,
    (find_chrome_path host st).1 = Ret chrome_path
    /\ last (p_trace (generate_svg host spawn mmd_file st).2)
       = Some (EvRun (render_argv mmd_file) (child_env host chrome_path) outcome)
    /\ (forall p, chrome_path = Some p -> p <> "" ->
          child_env host chrome_path !! "PUPPETEER_EXECUTABLE_PATH" = Some p
          /\ child_env host chrome_path !! "CHROME_PATH" = Some p
          /\ forall k, k <> "PUPPETEER_EXECUTABLE_PATH" -> k <> "CHROME_PATH" ->
                       child_env host chrome_path !! k = environ host !! k)
    /\ (chrome_path = None -> child_env host chrome_path = environ host).
Proof.
  destruct (find_chrome_path_quiet host st) as (c & walks & Hc & _).
  exists c, (spawn (p_fs (with_events st walks)) (render_argv mmd_file) (child_env host c)).1.
  rewrite Hc. split; [reflexivity|]. split; [|split].
  - rewrite (generate_svg_run _ _ _ _ _ _ Hc). unfold launched. cbn [snd p_trace].
    apply last_snoc.
  - intros p -> Hp. unfold child_env. apply String.eqb_neq in Hp. rewrite Hp.
    split; [|split].
    + rewrite lookup_insert_ne by discriminate. apply lookup_insert_eq.
    + apply lookup_insert_eq.
    + intros k Hk1 Hk2. rewrite !lookup_insert_ne by congruence. reflexivity.
  - intros ->. reflexivity.
Qed.

Lemma child_environment_witness :
  exists outcome,
    last (p_trace (generate_svg Sample.host0 Sample.spawn0 "./arch.mmd" Sample.st_cache).2)
    = Some (EvRun (render_argv "./arch.mmd")
              (<["CHROME_PATH" := "/home/dev/.cache/puppeteer/chrome/linux-1/chrome"]>
                 (<["PUPPETEER_EXECUTABLE_PATH" :=
                      "/home/dev/.cache/puppeteer/chrome/linux-1/chrome"]>
                    (environ Sample.host0)))
              outcome)
    /\ child_env Sample.host0 (Some "/home/dev/.cache/puppeteer/chrome/linux-1/chrome") !! "PATH"
       = Some "/usr/bin".
Proof.
  destruct (child_environment Sample.host0 Sample.spawn0 Sample.st_cache "./arch.mmd")
    as (c & outcome & Hc & Hlast & Hset & _).
  assert (c = Some "/home/dev/.cache/puppeteer/chrome/linux-1/chrome") as ->.
  { assert (H : (find_chrome_path Sample.host0 Sample.st_cache).1
                = Ret (Some "/home/dev/.cache/puppeteer/chrome/linux-1/chrome"))
      by (vm_compute; reflexivity).
    rewrite H in Hc. now injection Hc. }
  exists outcome. split; [exact Hlast|].
  destruct (Hset _ eq_refl) as (_ & _ & Hother); [discriminate|].
  rewrite Hother by discriminate. reflexivity.
Defined.

(** * Further properties of the script *)

(** ** Failures of the operating system *)

Section Failures.

Variable host : Host.
Variable spawn : FS -> list string -> environment -> launch * FS.

(** A run that passed the availability check and discovered files is the
    loop over them followed by the report. *)
Lemma main_in_loop st mmd_files :
  (check_mmdc host spawn st).1 = Ret true ->
  discovered (p_fs (check_mmdc host spawn st).2) "." = mmd_files ->
  mmd_files <> [] ->
  main host spawn st
  = match process_files host spawn mmd_files (mkTally 0 0 0 [])
            (loop_entry (with_events (check_mmdc host spawn st).2 [EvWalk "."]) mmd_files) with
    | (Ret t, st3) => report t st3
    | (Raise e, st3) => (Raise e, st3)
    end.
Proof.
  intros Hc Hd Hne. rewrite main_run.
  destruct (check_mmdc host spawn st) as [r st1]. cbn [fst snd] in *. subst r.
  cbn zeta. rewrite Hd. destruct mmd_files; [contradiction | reflexivity].
Qed.

(** An event of a launch in one iteration of the loop is the render of the
    file of that iteration, and its outcome decides what the iteration
    returns. *)
Lemma process_file_outcome mmd_file t st evs f env outcome :
  p_trace (process_file host spawn mmd_file t st).2 = p_trace st ++ evs ->
  EvRun (render_argv f) env outcome ∈ evs ->
  f = mmd_file
  /\ exists t_ok, (process_file host spawn mmd_file t st).1
                  = step_result t t_ok mmd_file outcome.
Proof.
  assert (Hstep : forall line t_ok,
    p_trace (render_step host spawn mmd_file line t t_ok st).2 = p_trace st ++ evs ->
    EvRun (render_argv f) env outcome ∈ evs ->
    f = mmd_file
    /\ exists t_ok', (render_step host spawn mmd_file line t t_ok st).1
                     = step_result t t_ok' mmd_file outcome).
  { intros line t_ok Htr Hin.
    destruct (find_chrome_path_quiet host (printed st line)) as (c & walks & Hc & Hwalks).
    rewrite (render_step_run _ _ _ _ _ _ _ _ _ Hc) in Htr |- *. cbn [fst snd] in *.
    unfold launched, with_events, printed in Htr. cbn [p_trace p_fs] in Htr.
    rewrite <- app_assoc in Htr. apply app_inv_head in Htr. subst evs.
    apply elem_of_app in Hin as [Hin|Hin].
    - rewrite Forall_forall in Hwalks. destruct (Hwalks _ Hin).
    - apply list_elem_of_singleton in Hin.
      assert (Hf : render_argv f = render_argv mmd_file) by congruence.
      split; [now apply render_argv_inj|]. exists t_ok.
      unfold with_events, printed. cbn [p_fs]. congruence. }
  assert (Hquiet : forall r : res tally,
    p_trace (r, st).2 = p_trace st ++ evs ->
    EvRun (render_argv f) env outcome ∈ evs ->
    f = mmd_file /\ exists t_ok, (r, st).1 = step_result t t_ok mmd_file outcome).
  { intros r Htr Hin. cbn [snd] in Htr.
    rewrite <- (app_nil_r (p_trace st)) in Htr at 1. apply app_inv_head in Htr. subst evs.
    inversion Hin. }
  rewrite process_file_unfold.
  destruct (fs_mtime (p_fs st) (Str.replace mmd_file ".mmd" ".svg")) as [o|];
    [destruct (fs_mtime (p_fs st) mmd_file) as [m|]; [destruct (m >? o)%Z|]|];
    auto.
Qed.

End Failures.

(** X1.  A source that cannot be examined while its output exists ends the
    run: the freshness check raises, no handler catches it, the files after
    it are not processed and no summary is printed; the exit status is 1. *)
Theorem unreadable_source_ends_the_run (host : Host)
    (spawn : FS -> list string -> environment -> launch * FS)
    (st : proc) (pre : list string) (mmd_file : string) (post : list string)
    (t1 : tally) (st1 : proc) (svg_mtime : Z) :
  (check_mmdc host spawn st).1 = Ret true ->
  discovered (p_fs (check_mmdc host spawn st).2) "." = pre ++ mmd_file :: post ->
  process_files host spawn pre (mkTally 0 0 0 [])
    (loop_entry (with_events (check_mmdc host spawn st).2 [EvWalk "."])
                (pre ++ mmd_file :: post))
  = (Ret t1, st1) ->
  fs_mtime (p_fs st1) (Str.replace mmd_file ".mmd" ".svg") = Some svg_mtime ->
  fs_mtime (p_fs st1) mmd_file = None ->
  needs_generation mmd_file st1 = (Raise FileNotFoundError, st1)
  /\ main host spawn st = (Raise FileNotFoundError, st1)
  /\ exit_status (main host spawn st).1 = 1%Z.
Proof.
  intros Hc Hd Hpre Hsvg Hmmd.
  assert (Hn : needs_generation mmd_file st1 = (Raise FileNotFoundError, st1))
    by (now rewrite needs_generation_run, Hsvg, Hmmd).
  assert (Hm : main host spawn st = (Raise FileNotFoundError, st1)).
  { rewrite (main_in_loop host spawn st _ Hc Hd) by (now destruct pre).
    rewrite process_files_app, Hpre, process_files_cons, process_file_unfold.
    cbn zeta. now rewrite Hsvg, Hmmd. }
  split; [exact Hn|]. split; [exact Hm|]. now rewrite Hm.
Qed.

Lemma unreadable_source_ends_the_run_witness :
  exit_status (main Sample.host0 Sample.spawn0 Cases.st_ghost).1 = 1%Z
  /\ p_out (main Sample.host0 Sample.spawn0 Cases.st_ghost).2
     = ["Scanning for Mermaid files (.mmd)..."; ("Found 3 file(s)" ++ Str.nl)%string].
Proof.
  destruct (unreadable_source_ends_the_run Sample.host0 Sample.spawn0 Cases.st_ghost
              ["./a.mmd"] "./ghost.mmd" ["./z.mmd"] (mkTally 0 0 1 [])
              (process_files Sample.host0 Sample.spawn0 ["./a.mmd"] (mkTally 0 0 0 [])
                 (loop_entry (with_events (check_mmdc Sample.host0 Sample.spawn0
                                             Cases.st_ghost).2 [EvWalk "."])
                             ["./a.mmd"; "./ghost.mmd"; "./z.mmd"])).2 5%Z)
    as (_ & Hm & Hx); try (vm_compute; reflexivity).
  split; [exact Hx|]. rewrite Hm. vm_compute. reflexivity.
Defined.

(** X2.  A renderer that cannot be launched for a file ends the run, unlike
    one that exits non-zero: the exception of the launch is not caught, the
    loop stops at that file and the files after it are not processed. *)
Theorem launch_failure_ends_the_loop (host : Host)
    (spawn : FS -> list string -> environment -> launch * FS)
    (pre : list string) (mmd_file : string) (post : list string)
    (t : tally) (st : proc) (t1 : tally) (st1 : proc)
    (evs : list event) (env : environment) (outcome : launch) :
  process_files host spawn pre t st = (Ret t1, st1) ->
  p_trace (process_file host spawn mmd_file t1 st1).2 = p_trace st1 ++ evs ->
  EvRun (render_argv mmd_file) env outcome ∈ evs ->
  outcome = NotFound \/ outcome = Denied ->
  let e := match outcome with NotFound => FileNotFoundError | _ => PermissionError end in
  (process_file host spawn mmd_file t1 st1).1 = Raise e
  /\ process_files host spawn (pre ++ mmd_file :: post) t st
     = (Raise e, (process_file host spawn mmd_file t1 st1).2)
  /\ exit_status (process_files host spawn (pre ++ mmd_file :: post) t st).1 = 1%Z.
Proof.
  intros Hpre Htr Hin Hout e.
  destruct (process_file_outcome host spawn _ _ _ _ _ _ _ Htr Hin) as (_ & t_ok & Hres).
  assert (Hr : (process_file host spawn mmd_file t1 st1).1 = Raise e).
  { rewrite Hres. subst e. now destruct Hout as [-> | ->]. }
  assert (Hl : process_files host spawn (pre ++ mmd_file :: post) t st
               = (Raise e, (process_file host spawn mmd_file t1 st1).2)).
  { rewrite process_files_app, Hpre, process_files_cons.
    destruct (process_file host spawn mmd_file t1 st1) as [r st2]. cbn [fst snd] in *.
    now rewrite Hr. }
  split; [exact Hr|]. split; [exact Hl|]. rewrite Hl. subst e.
  now destruct Hout as [-> | ->].
Qed.

Lemma launch_failure_ends_the_loop_witness :
  process_files Sample.host0 Cases.spawn_vanishing
    (["./docs/seq.mmd"] ++ "./docs/flow.mmd" :: ["./zeta/late.mmd"])
    (mkTally 0 0 0 []) Sample.st0
  = (Raise FileNotFoundError,
     (process_file Sample.host0 Cases.spawn_vanishing "./docs/flow.mmd" (mkTally 0 0 1 [])
        Sample.st0).2).
Proof.
  eapply (launch_failure_ends_the_loop Sample.host0 Cases.spawn_vanishing
            ["./docs/seq.mmd"] "./docs/flow.mmd" ["./zeta/late.mmd"]
            (mkTally 0 0 0 []) Sample.st0 (mkTally 0 0 1 []) Sample.st0 _ _ NotFound).
  - reflexivity.
  - vm_compute. reflexivity.
  - apply list_elem_of_here.
  - left. reflexivity.
Defined.

(** X3.  When the version query cannot be launched for a reason other than
    the program being absent, the availability check does not answer: the
    exception reaches the top, nothing is printed, not even the install
    instructions, nothing is walked, and the exit status is 1. *)
Theorem unlaunchable_renderer_is_not_reported (host : Host)
    (spawn : FS -> list string -> environment -> launch * FS) (st : proc) :
  (spawn (p_fs st) version_query (environ host)).1 = Denied ->
  check_mmdc host spawn st
  = (Raise PermissionError, launched spawn st version_query (environ host))
  /\ main host spawn st
     = (Raise PermissionError, launched spawn st version_query (environ host))
  /\ p_out (main host spawn st).2 = p_out st
  /\ exit_status (main host spawn st).1 = 1%Z.
Proof.
  intros Hq.
  assert (Hc : check_mmdc host spawn st
               = (Raise PermissionError, launched spawn st version_query (environ host)))
    by (now rewrite check_mmdc_run, Hq).
  assert (Hm : main host spawn st
               = (Raise PermissionError, launched spawn st version_query (environ host)))
    by (now rewrite main_run, Hc).
  split; [exact Hc|]. split; [exact Hm|]. rewrite Hm. split; reflexivity.
Qed.

Lemma unlaunchable_renderer_is_not_reported_witness :
  p_out (main Sample.host0 Cases.spawn_denied Sample.st0).2 = []
  /\ exit_status (main Sample.host0 Cases.spawn_denied Sample.st0).1 = 1%Z.
Proof.
  destruct (unlaunchable_renderer_is_not_reported Sample.host0 Cases.spawn_denied Sample.st0)
    as (_ & _ & Ho & Hx); [reflexivity|].
  split; [exact Ho | exact Hx].
Defined.

(** ** Launches and the tally *)

Lemma launches_walks evs : Forall is_walk evs -> launches evs = [].
Proof.
  induction 1 as [|[top|argv env o] evs Hw _ IH]; [reflexivity | exact IH | destruct Hw].
Qed.

Lemma launches_app evs1 evs2 : launches (evs1 ++ evs2) = launches evs1 ++ launches evs2.
Proof. apply omap_app. Qed.

Section Launches.

Variable host : Host.
Variable spawn : FS -> list string -> environment -> launch * FS.

(** One iteration either launches nothing, and then skips the file or fails
    on examining it, or launches the render of its file once, and then counts
    the file among the generated, the updated or the errors. *)
Lemma process_file_launches mmd_file t st :
  exists evs,
    p_trace (process_file host spawn mmd_file t st).2 = p_trace st ++ evs
    /\ ((launches evs = []
         /\ (process_file host spawn mmd_file t st
             = (Ret (mkTally (generated t) (updated t) (skipped t + 1) (errors t)), st)
             \/ process_file host spawn mmd_file t st = (Raise FileNotFoundError, st)))
        \/ (launches evs = [render_argv mmd_file]
            /\ match (process_file host spawn mmd_file t st).1 with
               | Ret t' =>
                   skipped t' = skipped t
                   /\ generated t' + updated t' + length (errors t')
                      = generated t + updated t + length (errors t) + 1
               | Raise e => os_failure e
               end)).
Proof.
  assert (Hstep : forall line t_ok,
    skipped t_ok = skipped t
    /\ generated t_ok + updated t_ok + length (errors t_ok)
       = generated t + updated t + length (errors t) + 1 ->
    exists evs,
      p_trace (render_step host spawn mmd_file line t t_ok st).2 = p_trace st ++ evs
      /\ launches evs = [render_argv mmd_file]
      /\ match (render_step host spawn mmd_file line t t_ok st).1 with
         | Ret t' =>
             skipped t' = skipped t
             /\ generated t' + updated t' + length (errors t')
                = generated t + updated t + length (errors t) + 1
         | Raise e => os_failure e
         end).
  { intros line t_ok Hok.
    destruct (find_chrome_path_quiet host (printed st line)) as (c & walks & Hc & Hwalks).
    rewrite (render_step_run _ _ _ _ _ _ _ _ _ Hc). cbn [fst snd].
    set (outcome := (spawn _ _ _).1).
    exists (walks ++ [EvRun (render_argv mmd_file) (child_env host c) outcome]).
    split; [|split].
    - unfold launched, with_events, printed. cbn. now rewrite app_assoc.
    - now rewrite launches_app, (launches_walks _ Hwalks).
    - unfold step_result, os_failure. destruct outcome as [code out err|code| |]; eauto.
      destruct (code =? 0)%Z; [exact Hok|].
      unfold record_error. cbn. rewrite length_app. cbn. split; lia. }
  rewrite process_file_unfold.
  destruct (fs_mtime (p_fs st) (Str.replace mmd_file ".mmd" ".svg")) as [o|].
  - destruct (fs_mtime (p_fs st) mmd_file) as [m|].
    + destruct (m >? o)%Z.
      * destruct (Hstep ("Updating: " ++ Str.replace mmd_file ".mmd" ".svg"
                         ++ " (source is newer)")%string
                    (mkTally (generated t) (updated t + 1) (skipped t) (errors t)))
          as (evs & Htr & Hl & Hres); [cbn; split; lia|].
        exists evs. split; [exact Htr|]. right. split; assumption.
      * exists []. cbn [snd]. rewrite app_nil_r. split; [reflexivity|]. left. auto.
    + exists []. cbn [snd]. rewrite app_nil_r. split; [reflexivity|]. left. auto.
  - destruct (Hstep ("Generating: " ++ Str.replace mmd_file ".mmd" ".svg")%string
                (mkTally (generated t + 1) (updated t) (skipped t) (errors t)))
      as (evs & Htr & Hl & Hres); [cbn; split; lia|].
    exists evs. split; [exact Htr|]. right. split; assumption.
Qed.

Lemma process_files_launches mmd_files t st :
  exists evs,
    p_trace (process_files host spawn mmd_files t st).2 = p_trace st ++ evs
    /\ launches evs `sublist_of` map render_argv mmd_files
    /\ match (process_files host spawn mmd_files t st).1 with
       | Ret t' =>
           generated t' + updated t' + length (errors t')
           = generated t + updated t + length (errors t) + length (launches evs)
           /\ skipped t' + length (launches evs) = skipped t + length mmd_files
       | Raise _ => True
       end.
Proof.
  revert t st. induction mmd_files as [|f rest IH]; intros t st.
  - exists []. cbn. rewrite app_nil_r. split; [reflexivity|]. split; [constructor | lia].
  - rewrite process_files_cons.
    destruct (process_file_launches f t st) as (evs1 & Htr1 & Hcase).
    destruct (process_file host spawn f t st) as [[t1|e] st1] eqn:Hpf; cbn [fst snd] in *.
    + destruct (IH t1 st1) as (evs2 & Htr2 & Hsub & Hres).
      exists (evs1 ++ evs2). split; [rewrite Htr2, Htr1; now rewrite app_assoc|].
      rewrite launches_app, length_app. cbn [map length].
      destruct Hcase as [[Hl [Hr|Hr]]|[Hl Hr]].
      * injection Hr as -> ->. rewrite Hl. cbn [app length].
        split; [now apply sublist_cons|].
        destruct (process_files host spawn rest _ _).1; [|exact I]. cbn in Hres. lia.
      * discriminate Hr.
      * rewrite Hl. cbn [app length]. split; [now apply sublist_skip|].
        destruct (process_files host spawn rest t1 st1).1; [|exact I]. lia.
    + exists evs1. split; [exact Htr1|]. split; [|exact I].
      destruct Hcase as [[-> _]|[-> _]]; [apply sublist_nil_l|].
      cbn [map]. apply sublist_skip, sublist_nil_l.
Qed.

End Launches.

(** X4.  The counts of a loop that ran to its end agree with what was
    launched: the generated, the updated and the errors together are as many
    as the renders launched, and the skipped are the files for which nothing
    was launched. *)
Theorem tally_matches_launches (host : Host)
    (spawn : FS -> list string -> environment -> launch * FS)
    (mmd_files : list string) (t : tally) (st : proc)
    (t' : tally) (st' : proc) (evs : list event) :
  process_files host spawn mmd_files t st = (Ret t', st') ->
  p_trace st' = p_trace st ++ evs ->
  generated t' + updated t' + length (errors t')
  = generated t + updated t + length (errors t) + length (launches evs)
  /\ skipped t' + length (launches evs) = skipped t + length mmd_files.
Proof.
  intros Hrun Htr.
  destruct (process_files_launches host spawn mmd_files t st) as (evs' & Htr' & _ & Hres).
  rewrite Hrun in Htr', Hres. cbn [fst snd] in *.
  rewrite Htr' in Htr. apply app_inv_head in Htr. now subst evs'.
Qed.

Lemma tally_matches_launches_witness :
  exists t' st' evs,
    process_files Sample.host0 Sample.spawn0 (discovered Sample.fs0 ".") (mkTally 0 0 0 [])
                  Sample.st0 = (Ret t', st')
    /\ length (launches evs) = 3
    /\ generated t' + updated t' + length (errors t') = 3
    /\ skipped t' = 1.
Proof.
  pose (R := process_files Sample.host0 Sample.spawn0 (discovered Sample.fs0 ".")
               (mkTally 0 0 0 []) Sample.st0).
  pose (t' := mkTally 2 0 1 [("./docs/flow.mmd",
                              Some "Error: Failed to launch the browser process")]).
  assert (H1 : R.1 = Ret t') by (vm_compute; reflexivity).
  assert (Hrun : R = (Ret t', R.2)) by (rewrite <- H1; apply surjective_pairing).
  assert (Hlen : length (launches (p_trace R.2)) = 3) by (vm_compute; reflexivity).
  destruct (tally_matches_launches _ _ _ _ _ _ _ (p_trace R.2) Hrun eq_refl) as [Hl Hs].
  exists t', R.2, (p_trace R.2). split; [exact Hrun|]. split; [exact Hlen|].
  rewrite Hlen in Hl, Hs. cbn in Hl, Hs. split; [exact Hl | reflexivity].
Defined.

(** ** The run as a whole *)

Section WholeRun.

Variable host : Host.
Variable spawn : FS -> list string -> environment -> launch * FS.

Lemma report_trace t st : p_trace (report t st).2 = p_trace st.
Proof. destruct (report_run t st) as [more ->]. reflexivity. Qed.

Lemma report_exit t st :
  exit_status (report t st).1 = match errors t with [] => 0%Z | _ => 1%Z end
  /\ exists e, (report t st).1 = Raise e.
Proof.
  destruct (report_run t st) as [more ->]. cbn [fst exit_status]. split; [reflexivity|]. eauto.
Qed.

(** A loop over files that are all up to date skips each of them and leaves
    the state as it is. *)
Lemma process_files_up_to_date mmd_files t st :
  Forall (fun f => up_to_dateb (p_fs st) f = true) mmd_files ->
  process_files host spawn mmd_files t st
  = (Ret (mkTally (generated t) (updated t) (skipped t + length mmd_files) (errors t)), st).
Proof.
  intros Hall. revert t. induction Hall as [|f rest Hf _ IH]; intros t.
  - cbn. rewrite Nat.add_0_r. now destruct t.
  - rewrite process_files_cons, process_file_unfold. cbn zeta.
    unfold up_to_dateb in Hf.
    destruct (fs_mtime (p_fs st) f) as [m|]; [|discriminate].
    destruct (fs_mtime (p_fs st) (Str.replace f ".mmd" ".svg")) as [o|]; [|discriminate].
    apply Z.leb_le in Hf.
    destruct (Z.gtb_spec m o) as [Hgt|_]; [lia|].
    rewrite IH. cbn [generated updated skipped errors length].
    do 2 f_equal. f_equal. lia.
Qed.

End WholeRun.

(** X5.  Besides the version query, a run launches the renderer only to
    render discovered sources: the launches after the query are renders of
    discovered files, each at most once and in the sorted order. *)
Theorem run_launches_renders_of_discovered (host : Host)
    (spawn : FS -> list string -> environment -> launch * FS)
    (st : proc) (evs : list event) :
  p_trace (main host spawn st).2 = p_trace st ++ evs ->
  exists renders,
    launches evs = version_query :: renders
    /\ renders `sublist_of`
       map render_argv (discovered (p_fs (check_mmdc host spawn st).2) ".").
Proof.
  intros Htr. rewrite main_run in Htr.
  pose proof (check_mmdc_run host spawn st) as Hc.
  destruct (check_mmdc host spawn st) as [r st1]. injection Hc as Hr Hst1.
  cbn [snd].
  assert (Hq : p_trace st1
               = p_trace st ++ [EvRun version_query (environ host)
                                      (spawn (p_fs st) version_query (environ host)).1])
    by (now subst st1).
  assert (Hquery : forall evs', p_trace st1 ++ evs' = p_trace st ++ evs ->
                                launches evs = version_query :: launches evs').
  { intros evs' H. rewrite Hq, <- app_assoc in H. apply app_inv_head in H. now subst evs. }
  destruct r as [[|]|e].
  - cbn zeta in Htr. destruct (discovered (p_fs st1) ".") as [|f files] eqn:Hd.
    + exists []. split; [|constructor]. apply (Hquery [EvWalk "."]). exact Htr.
    + set (files' := f :: files) in *.
      destruct (process_files_launches host spawn files' (mkTally 0 0 0 [])
                  (loop_entry (with_events st1 [EvWalk "."]) files'))
        as (evs2 & Htr2 & Hsub & _).
      exists (launches evs2). split; [|exact Hsub].
      rewrite (Hquery ([EvWalk "."] ++ evs2)); [now rewrite launches_app|].
      rewrite <- Htr. rewrite app_assoc.
      change (p_trace st1 ++ [EvWalk "."])
        with (p_trace (loop_entry (with_events st1 [EvWalk "."]) files')).
      rewrite <- Htr2.
      destruct (process_files host spawn files' _ _) as [[t|e] st3]; cbn [snd];
        [now rewrite report_trace | reflexivity].
  - exists []. split; [|apply sublist_nil_l]. apply (Hquery []).
    rewrite app_nil_r. exact Htr.
  - exists []. split; [|apply sublist_nil_l]. apply (Hquery []).
    rewrite app_nil_r. exact Htr.
Qed.

Lemma run_launches_renders_of_discovered_witness :
  exists renders,
    launches (p_trace (main Sample.host0 Sample.spawn0 Sample.st0).2)
    = version_query :: renders
    /\ renders `sublist_of`
       map render_argv ["./arch.mmd"; "./docs/flow.mmd"; "./docs/seq.mmd"; "./zeta/late.mmd"].
Proof.
  apply (run_launches_renders_of_discovered Sample.host0 Sample.spawn0 Sample.st0).
  reflexivity.
Defined.

(** X6.  When every discovered source is up to date, the run launches
    nothing after the version query and prints nothing about any file: after
    the two announcements it prints the summary with every file skipped, and
    exits with status 0. *)
Theorem up_to_date_tree_renders_nothing (host : Host)
    (spawn : FS -> list string -> environment -> launch * FS) (st : proc) :
  let st1 := (check_mmdc host spawn st).2 in
  let mmd_files := discovered (p_fs st1) "." in
  (check_mmdc host spawn st).1 = Ret true ->
  mmd_files <> [] ->
  Forall (fun f => up_to_dateb (p_fs st1) f = true) mmd_files ->
  main host spawn st
  = (Raise (SystemExit 0),
     with_lines (loop_entry (with_events st1 [EvWalk "."]) mmd_files)
                [summary_line (mkTally 0 0 (length mmd_files) [])]).
Proof.
  intros st1 files Hc Hne Hall.
  rewrite (main_in_loop host spawn st files Hc eq_refl Hne). fold st1.
  rewrite process_files_up_to_date by exact Hall.
  cbn [generated updated skipped errors Nat.add].
  unfold report. rewrite (bind_ret_run _ _ _ _ _ (print_run _ _)). reflexivity.
Qed.

Lemma up_to_date_tree_renders_nothing_witness :
  exit_status (main Sample.host0 Sample.spawn0 Cases.st_fresh).1 = 0%Z
  /\ p_trace (main Sample.host0 Sample.spawn0 Cases.st_fresh).2
     = [EvRun version_query (environ Sample.host0) (Exited 0 "11.4.2" ""); EvWalk "."]
  /\ p_out (main Sample.host0 Sample.spawn0 Cases.st_fresh).2
     = ["Scanning for Mermaid files (.mmd)..."; ("Found 2 file(s)" ++ Str.nl)%string;
        (Str.nl ++ "Summary: Generated: 0, Updated: 0, Skipped: 2, Errors: 0")%string].
Proof.
  pose proof (up_to_date_tree_renders_nothing Sample.host0 Sample.spawn0 Cases.st_fresh) as H.
  cbn zeta in H. rewrite H.
  - repeat split; vm_compute; reflexivity.
  - vm_compute. reflexivity.
  - vm_compute. discriminate.
  - vm_compute. repeat constructor.
Defined.

(** X7.  A run never returns normally: it ends by [sys.exit] or by an
    exception nothing catches, with exit status 0 or 1.  The status
    is 0 exactly when the availability check succeeded and either nothing was
    discovered or the loop ran to its end without recording an error. *)
Theorem exit_status_of_a_run (host : Host)
    (spawn : FS -> list string -> environment -> launch * FS) (st : proc) :
  let st1 := (check_mmdc host spawn st).2 in
  let mmd_files := discovered (p_fs st1) "." in
  (exists e, (main host spawn st).1 = Raise e)
  /\ (exit_status (main host spawn st).1 = 0%Z \/ exit_status (main host spawn st).1 = 1%Z)
  /\ (exit_status (main host spawn st).1 = 0%Z
      <-> (check_mmdc host spawn st).1 = Ret true
          /\ (mmd_files = []
              \/ exists t st3,
                   process_files host spawn mmd_files (mkTally 0 0 0 [])
                     (loop_entry (with_events st1 [EvWalk "."]) mmd_files) = (Ret t, st3)
                   /\ errors t = [])).
Proof.
  intros st1 files. rewrite main_run.
  pose proof (check_mmdc_run host spawn st) as Hc.
  destruct (check_mmdc host spawn st) as [r st1'] eqn:Hcheck. cbn [snd] in st1. subst st1.
  cbn [fst]. destruct r as [[|]|e].
  - cbn zeta. fold files.
    destruct files as [|f files'] eqn:Hfiles.
    + cbn [fst exit_status]. split; [eauto|]. split; [auto|]. split; auto.
    + rewrite <- Hfiles.
      pose proof (process_files_spec host spawn files (mkTally 0 0 0 [])
                    (loop_entry (with_events st1' [EvWalk "."]) files)) as (evs & _ & Hspec).
      destruct (process_files host spawn files _ _) as [[t|e] st3]; cbn [fst] in *.
      * destruct (report_exit t st3) as [Hx [e He]]. rewrite Hx.
        split; [eauto|]. split; [destruct (errors t); auto|]. split.
        -- intros H0. split; [reflexivity|]. right. exists t, st3. split; [reflexivity|].
           destruct (errors t); [reflexivity | discriminate].
        -- intros [_ [Hnil|(t0 & st0 & Heq & Herr)]]; [rewrite Hfiles in Hnil; discriminate|].
           injection Heq as <- _. now rewrite Herr.
      * split; [eauto|].
        assert (Hx : exit_status (@Raise unit e) = 1%Z) by (destruct Hspec as [-> | [-> | ->]]; reflexivity).
        rewrite Hx. split; [auto|]. split; [discriminate|].
        intros [_ [Hnil|(t0 & st0 & Heq & _)]]; [rewrite Hfiles in Hnil|]; discriminate.
  - cbn [fst exit_status]. split; [eauto|]. split; [auto|]. split; [discriminate|].
    intros [H _]. discriminate.
  - injection Hc as He _.
    destruct (spawn (p_fs st) version_query (environ host)).1 as [c o err|c| |];
      try discriminate; injection He as ->;
      (cbn [fst exit_status]; split; [eauto|]; split; [auto|]; split; [discriminate|];
       intros [H _]; discriminate).
Qed.

Lemma exit_status_of_a_run_witness :
  exit_status (main Sample.host0 Cases.spawn_writing Sample.st0).1 = 0%Z.
Proof.
  apply (exit_status_of_a_run Sample.host0 Cases.spawn_writing Sample.st0).
  split; [vm_compute; reflexivity|]. right.
  exists (mkTally 2 1 1 []), (process_files Sample.host0 Cases.spawn_writing
                (discovered (p_fs (check_mmdc Sample.host0 Cases.spawn_writing Sample.st0).2) ".")
                (mkTally 0 0 0 [])
                (loop_entry (with_events (check_mmdc Sample.host0 Cases.spawn_writing
                                            Sample.st0).2 [EvWalk "."])
                   (discovered (p_fs (check_mmdc Sample.host0 Cases.spawn_writing
                                        Sample.st0).2) "."))).2.
  split; [|reflexivity].
  rewrite (surjective_pairing (process_files _ _ _ _ _)). f_equal.
Defined.

(** ** Source and output paths *)

Lemma endswith_spec (s suf : string) :
  Str.endswith s suf = true <-> exists p, s = (p ++ suf)%string.
Proof.
  split.
  - induction s as [|c s IH]; cbn [Str.endswith].
    + rewrite orb_false_r. intros H%String.eqb_eq. exists "". now subst.
    + intros [H%String.eqb_eq | H]%orb_true_iff.
      * exists "". now subst.
      * destruct (IH H) as [p ->]. exists (String c p). reflexivity.
  - intros [p ->]. induction p as [|c p IH].
    + change ("" ++ suf)%string with suf. destruct suf; cbn [Str.endswith];
        now rewrite String.eqb_refl.
    + rewrite str_app_cons. cbn [Str.endswith]. now rewrite IH, orb_true_r.
Qed.

Lemma endswith_app_r (a b suf : string) :
  Str.endswith b suf = true -> Str.endswith (a ++ b) suf = true.
Proof.
  intros [p ->]%endswith_spec. apply endswith_spec. exists (a ++ p)%string.
  now rewrite string_app_assoc.
Qed.

Lemma join2_endswith (a b suf : string) :
  Str.endswith b suf = true -> Str.endswith (Path.join2 a b) suf = true.
Proof.
  intros H. unfold Path.join2.
  destruct (Str.startswith b "/"); [exact H|].
  destruct (_ || _); repeat apply endswith_app_r; exact H.
Qed.

Lemma prefix_mmd_length (s : string) :
  String.prefix ".mmd" s = true -> 4 <= String.length s.
Proof.
  destruct s as [|c1 [|c2 [|c3 [|c4 s4]]]]; cbn [String.prefix String.length]; intros H;
    repeat match type of H with
           | context [ascii_dec ?a ?b] => destruct (ascii_dec a b)
           end; try discriminate; lia.
Qed.

Lemma prefix_mmd_app_eq (c : ascii) (s : string) :
  String.prefix ".mmd" (String c s ++ ".mmd") = String.prefix ".mmd" (String c s).
Proof.
  destruct (String.prefix ".mmd" (String c s)) eqn:H; [|now apply prefix_mmd_app].
  destruct s as [|c2 [|c3 [|c4 s4]]];
    rewrite ?str_app_cons; cbn [String.prefix] in *;
    repeat match goal with
           | H : context [ascii_dec ?a ?b] |- _ => destruct (ascii_dec a b)
           end; try discriminate.
  now destruct (s4 ++ ".mmd")%string.
Qed.

(** Replacing in a path that ends with the source extension replaces that
    extension, whatever comes before it. *)
Lemma replace_from_mmd (s : string) (k : nat) :
  k <= String.length s ->
  Str.replace_from ".mmd" ".svg" k (s ++ ".mmd")
  = (Str.replace_from ".mmd" ".svg" k s ++ ".svg")%string.
Proof.
  revert k. induction s as [|c s IH]; intros k Hk.
  - cbn in Hk. assert (k = 0) as -> by lia. reflexivity.
  - rewrite str_app_cons. cbn [Str.replace_from]. destruct k as [|k].
    + rewrite <- str_app_cons, prefix_mmd_app_eq.
      destruct (String.prefix ".mmd" (String c s)) eqn:Hp.
      * apply prefix_mmd_length in Hp. cbn [String.length] in Hp.
        rewrite IH by (cbn; lia). now rewrite string_app_assoc.
      * rewrite IH by lia. reflexivity.
    + apply IH. cbn [String.length] in Hk. lia.
Qed.

Lemma svg_is_not_mmd (a b : string) : (a ++ ".svg")%string <> (b ++ ".mmd")%string.
Proof.
  revert b. induction a as [|c a IH]; intros b H.
  - destruct b as [|c1 [|c2 [|c3 [|c4 b]]]]; try discriminate.
    rewrite !str_app_cons in H. change ("" ++ ".svg")%string with ".svg" in H.
    injection H as _ _ _ _ H. destruct b; discriminate.
  - destruct b as [|c' b].
    + rewrite str_app_cons in H. change ("" ++ ".mmd")%string with ".mmd" in H.
      destruct a as [|c2 [|c3 [|c4 a]]]; try discriminate.
      rewrite !str_app_cons in H. injection H as _ _ _ _ H. destruct a; discriminate.
    + rewrite !str_app_cons in H. injection H as _ H. now apply IH in H.
Qed.

(** X8.  Every discovered path ends with the source extension, whatever the
    tree and the directory discovery starts from. *)
Theorem discovered_paths_end_with_mmd (st : proc) (root_dir : string) (p : string) :
  p ∈ discovered (p_fs st) root_dir ->
  (find_mmd_files root_dir st).1 = Ret (discovered (p_fs st) root_dir)
  /\ Str.endswith p ".mmd" = true.
Proof.
  intros Hp. split; [reflexivity|].
  unfold discovered in Hp. rewrite (sorted_perm (collect_mmd _)) in Hp.
  apply elem_of_flat_map in Hp as ([[root dirs] files] & _ & Hp).
  cbn [mmd_of_entry] in Hp. apply list_elem_of_fmap in Hp as (file & -> & Hf).
  apply elem_of_filter_bool in Hf as [_ Hext]. now apply join2_endswith.
Qed.

Lemma discovered_paths_end_with_mmd_witness :
  Str.endswith "./docs/flow.mmd" ".mmd" = true.
Proof.
  apply (discovered_paths_end_with_mmd Sample.st0 "." "./docs/flow.mmd").
  vm_compute. apply list_elem_of_further, list_elem_of_here.
Defined.

(** X9.  For a path that ends with the source extension, the output path
    ends with the output extension: it is the rewritten stem followed by the
    output extension.  It is never the source path itself, so the renderer is
    not asked to write over its input. *)
Theorem output_path_of_a_source (p : string) :
  Str.endswith p ".mmd" = true ->
  Str.endswith (Str.replace p ".mmd" ".svg") ".svg" = true
  /\ Str.replace p ".mmd" ".svg" <> p
  /\ forall stem, p = (stem ++ ".mmd")%string ->
       Str.replace p ".mmd" ".svg" = (Str.replace stem ".mmd" ".svg" ++ ".svg")%string.
Proof.
  intros Hext.
  assert (Hstem : forall stem, p = (stem ++ ".mmd")%string ->
            Str.replace p ".mmd" ".svg" = (Str.replace stem ".mmd" ".svg" ++ ".svg")%string).
  { intros stem ->. unfold Str.replace. apply replace_from_mmd. lia. }
  destruct (proj1 (endswith_spec _ _) Hext) as [stem Hp].
  split; [|split; [|exact Hstem]].
  - rewrite (Hstem _ Hp). apply endswith_spec. eauto.
  - rewrite (Hstem _ Hp). rewrite Hp. apply svg_is_not_mmd.
Qed.

Lemma output_path_of_a_source_witness :
  Str.endswith (Str.replace "./notes.mmd/flow.mmd" ".mmd" ".svg") ".svg" = true
  /\ Str.replace "./notes.mmd/flow.mmd" ".mmd" ".svg" <> "./notes.mmd/flow.mmd".
Proof.
  destruct (output_path_of_a_source "./notes.mmd/flow.mmd") as (H1 & H2 & _);
    [reflexivity|]. split; assumption.
Defined.

(** ** Helper-executable discovery, further *)

Lemma first_glob_in patterns st p st' :
  first_glob patterns st = (Ret (Some p), st') ->
  exists pattern, p ∈ fs_glob (p_fs st) pattern.
Proof.
  induction patterns as [|pat patterns IH]; [discriminate|].
  cbn [first_glob]. unfold bind, glob_glob.
  destruct (fs_glob (p_fs st) pat) as [|x l] eqn:Hm; [exact IH|].
  destruct (last_sorted x l) as (q & -> & Hin & _). intros [= <- _].
  exists pat. now rewrite Hm.
Qed.

Lemma join2_nonempty (a b : string) : b <> "" -> Path.join2 a b <> "".
Proof.
  intros Hb. unfold Path.join2. destruct (Str.startswith b "/"); [exact Hb|].
  destruct (_ || _); intros H.
  - apply string_app_nil_inv in H as [_ H]. contradiction.
  - apply string_app_nil_inv in H as [_ H]. discriminate.
Qed.

Lemma scan_cache_nonempty entries p : scan_cache entries = Some p -> p <> "".
Proof.
  induction entries as [|[[root dirs] files] entries IH]; [discriminate|].
  cbn [scan_cache]. destruct (bool_decide _).
  - intros [= <-]. apply join2_nonempty. discriminate.
  - destruct (_ && _); [|exact IH]. intros [= <-]. apply join2_nonempty. discriminate.
Qed.

(** X10.  Helper discovery never fails and has no effect beyond, at most, one
    walk of the cache root: it raises nothing (the index into the sorted
    matches is always in range), prints nothing and launches nothing. *)
Theorem helper_discovery_never_fails (host : Host) (st : proc) :
  exists chrome_path,
    find_chrome_path host st = (Ret chrome_path, st)
    \/ (find_chrome_path host st
        = (Ret chrome_path, with_events st [EvWalk (cache_root host)])
        /\ is_Some (fs_mtime (p_fs st) (cache_root host))
        /\ Forall (fun p => fs_mtime (p_fs st) p = None) system_chrome_paths).
Proof.
  unfold find_chrome_path, bind. rewrite first_existing_run.
  destruct (List.find _ system_chrome_paths) as [p|] eqn:Hfind; [eauto|].
  destruct (first_glob_quiet (puppeteer_cache_paths (home_dir host)) st) as [[p|] ->]; [eauto|].
  rewrite first_cached_run.
  destruct (bool_decide (is_Some (fs_mtime (p_fs st) (cache_root host)))) eqn:Hroot; [|eauto].
  apply bool_decide_eq_true in Hroot.
  eexists. right. split; [reflexivity|]. split; [exact Hroot|].
  apply Forall_forall. intros p Hp%list_elem_of_In.
  pose proof (find_none _ _ Hfind p Hp) as Hno. cbn beta in Hno.
  apply bool_decide_eq_false in Hno.
  destruct (fs_mtime (p_fs st) p); [|reflexivity]. exfalso. apply Hno. eauto.
Qed.

Lemma helper_discovery_never_fails_witness :
  find_chrome_path Sample.host0 Sample.st_cache
  = (Ret (Some "/home/dev/.cache/puppeteer/chrome/linux-1/chrome"),
     with_events Sample.st_cache [EvWalk (cache_root Sample.host0)]).
Proof.
  destruct (helper_discovery_never_fails Sample.host0 Sample.st_cache) as [c [H|[H _]]].
  - exfalso. apply (f_equal (fun x => p_trace x.2)) in H. vm_compute in H. discriminate.
  - rewrite H. f_equal. f_equal.
    apply (f_equal fst) in H. vm_compute in H. now injection H.
Defined.

(** X11.  Glob matches being non-empty strings, a path that helper discovery
    returns is never the empty string, so the truth test of the render
    invocation accepts it and both variables are set to it. *)
Theorem found_helper_path_is_used (host : Host) (st : proc) (p : string) :
  (forall pattern, "" ∉ fs_glob (p_fs st) pattern) ->
  (find_chrome_path host st).1 = Ret (Some p) ->
  p <> ""
  /\ child_env host (Some p) !! "PUPPETEER_EXECUTABLE_PATH" = Some p
  /\ child_env host (Some p) !! "CHROME_PATH" = Some p.
Proof.
  intros Hglob Hfound.
  assert (Hp : p <> "").
  { revert Hfound. unfold find_chrome_path, bind. rewrite first_existing_run.
    destruct (List.find _ system_chrome_paths) as [q|] eqn:Hfind.
    - intros [= <-]. apply find_some in Hfind as [Hin _].
      unfold system_chrome_paths in Hin. cbn in Hin.
      destruct Hin as [<-|[<-|[<-|[<-|[]]]]]; discriminate.
    - destruct (first_glob (puppeteer_cache_paths (home_dir host)) st) as [[[q|]|e] st'] eqn:Hg.
      + intros [= <-]. apply first_glob_in in Hg as [pat Hin].
        intros ->. exact (Hglob _ Hin).
      + rewrite first_cached_run. destruct (bool_decide _); [|discriminate].
        cbn [fst]. intros [= H]. now apply scan_cache_nonempty in H.
      + discriminate. }
  split; [exact Hp|]. unfold child_env. apply String.eqb_neq in Hp. rewrite Hp.
  split; [rewrite lookup_insert_ne by discriminate|]; apply lookup_insert_eq.
Qed.

Lemma found_helper_path_is_used_witness :
  child_env Sample.host0 (Some "/home/dev/.cache/puppeteer/chrome/linux-1/chrome")
    !! "CHROME_PATH"
  = Some "/home/dev/.cache/puppeteer/chrome/linux-1/chrome".
Proof.
  apply (found_helper_path_is_used Sample.host0 Sample.st_cache).
  - intros pattern H. inversion H.
  - vm_compute. reflexivity.
Defined.

(** ** No path is discovered twice *)

Lemma collect_mmd_app a b : collect_mmd (a ++ b) = collect_mmd a ++ collect_mmd b.
Proof. apply flat_map_app. Qed.

Lemma collect_mmd_flat_map {A} (g : A -> list walk_entry) (l : list A) :
  collect_mmd (flat_map g l) = flat_map (fun x => collect_mmd (g x)) l.
Proof.
  induction l as [|x l IH]; [reflexivity|].
  cbn [flat_map]. now rewrite collect_mmd_app, IH.
Qed.

Lemma collect_walk_dir top files subdirs :
  collect_mmd (walk keep_dir top (Dir files subdirs))
  = map (Path.join2 top) (List.filter (fun file => Str.endswith file ".mmd") files)
    ++ flat_map (collect_sub top) subdirs.
Proof.
  cbn [walk]. change (collect_mmd (?e :: ?l)) with (mmd_of_entry e ++ collect_mmd l).
  cbn [mmd_of_entry]. f_equal. rewrite collect_mmd_flat_map.
  apply flat_map_ext. intros [d t1]. unfold collect_sub. cbn [fst snd].
  now destruct (keep_dir d).
Qed.

Lemma tree_distinctb_dir files subdirs :
  tree_distinctb (Dir files subdirs) = true
  <-> NoDup files /\ NoDup (map fst subdirs)
      /\ Forall (fun sub => tree_distinctb sub.2 = true) subdirs.
Proof.
  cbn [tree_distinctb]. rewrite !andb_true_iff, !bool_decide_eq_true, forallb_forall,
    Forall_forall.
  split; intros [[Hf Hd] Hs] || intros (Hf & Hd & Hs); repeat split; try assumption.
  - intros x Hx%list_elem_of_In. now apply Hs.
  - intros x Hx%list_elem_of_In. now apply Hs.
Qed.

(** A collected path is the walked directory followed by a non-empty chain
    of names. *)
Lemma collected_chain top t p :
  tree_okb t = true -> p ∈ collect_mmd (walk keep_dir top t) ->
  exists chain, chain <> [] /\ Forall (fun d => name_okb d = true) chain
                /\ p = Path.join top chain.
Proof.
  intros Hok (ds & files & subdirs & file & Hat & _ & Hf & _ & ->)%collect_mmd_iff.
  destruct (subtree_at_ok _ _ _ Hok Hat) as [Hds Hdir].
  apply tree_okb_dir in Hdir as [Hfiles _]. rewrite Forall_forall in Hfiles.
  exists (ds ++ [file]). split; [now destruct ds|]. split; [|reflexivity].
  apply Forall_app. auto.
Qed.

Lemma collect_sub_chain top d t1 p :
  name_okb d = true -> tree_okb t1 = true -> p ∈ collect_sub top (d, t1) ->
  exists chain, Forall (fun d => name_okb d = true) chain /\ p = Path.join top (d :: chain).
Proof.
  intros Hd Hok. unfold collect_sub. cbn [fst snd].
  destruct (keep_dir d); [|intros H; inversion H].
  intros (chain & _ & Hchain & ->)%collected_chain; [|exact Hok]. eauto.
Qed.

Lemma collect_NoDup t :
  forall top, dir_path top -> tree_okb t = true -> tree_distinctb t = true ->
              NoDup (collect_mmd (walk keep_dir top t)).
Proof.
  induction t as [files subdirs IH] using tree_ind'. intros top Htop Hok Hdis.
  apply tree_okb_dir in Hok as [Hfiles Hsubs].
  apply tree_distinctb_dir in Hdis as (Hnf & Hnd & Hds).
  rewrite collect_walk_dir. apply NoDup_app. split; [|split].
  - apply NoDup_fmap_2_strong;
      [|apply NoDup_ListNoDup, List.NoDup_filter, NoDup_ListNoDup, Hnf].
    intros x y [Hx _]%elem_of_filter_bool [Hy _]%elem_of_filter_bool Heq.
    rewrite Forall_forall in Hfiles.
    assert (H : [x] = [y]); [|now injection H].
    apply (join_inj top); [exact Htop|repeat constructor; auto..|exact Heq].
  - intros p (file & -> & [Hf _]%elem_of_filter_bool)%list_elem_of_fmap
             ([d t1] & Hsub & Hp)%elem_of_flat_map.
    rewrite Forall_forall in Hfiles. rewrite Forall_forall in Hsubs.
    destruct (Hsubs _ Hsub) as [Hd Ht1]. cbn [fst snd] in *.
    unfold collect_sub in Hp. cbn [fst snd] in Hp.
    destruct (keep_dir d); [|inversion Hp].
    apply collected_chain in Hp as (chain & Hne & Hchain & Heq); [|exact Ht1].
    change (Path.join2 top file) with (Path.join top [file]) in Heq.
    rewrite <- join_cons in Heq.
    apply join_inj in Heq; [|exact Htop|repeat constructor; auto|constructor; auto].
    injection Heq as _ Heq. now subst chain.
  - clear Hnf Hfiles.
    induction subdirs as [|[d t1] subdirs IHs]; [constructor|].
    cbn [flat_map]. cbn [map fst] in Hnd. apply NoDup_cons in Hnd as [Hd Hnd].
    apply Forall_cons in IH as [IH1 IH], Hsubs as [[Hdok Ht1] Hsubs], Hds as [Hd1 Hds].
    cbn [fst snd] in *. apply NoDup_app. split; [|split; [|now apply IHs]].
    + unfold collect_sub. cbn [fst snd]. destruct (keep_dir d); [|constructor].
      apply IH1; [|assumption..]. now apply join2_name.
    + intros p Hp ([d' t1'] & Hsub' & Hp')%elem_of_flat_map.
      rewrite Forall_forall in Hsubs. destruct (Hsubs _ Hsub') as [Hd' Ht1'].
      cbn [fst snd] in *.
      apply collect_sub_chain in Hp as (chain & Hchain & ->); [|assumption..].
      apply collect_sub_chain in Hp' as (chain' & Hchain' & Heq); [|assumption..].
      apply join_inj in Heq; [|exact Htop|constructor; auto..].
      injection Heq as -> _. apply Hd. apply list_elem_of_fmap. now exists (d', t1').
Qed.

(** X12.  In a tree whose names are names of directory entries, pairwise
    distinct within each directory, walked from a directory path, no path is
    discovered twice: every source is handed to the loop once. *)
Theorem no_path_is_discovered_twice (st : proc) (top : string) (t : tree) :
  fs_tree (p_fs st) top = Some t ->
  tree_okb t = true -> tree_distinctb t = true -> dir_path top ->
  exists mmd_files,
    (find_mmd_files top st).1 = Ret mmd_files /\ NoDup mmd_files.
Proof.
  intros Ht Hok Hdis Htop. exists (discovered (p_fs st) top). split; [reflexivity|].
  unfold discovered. rewrite Ht. rewrite (sorted_perm (collect_mmd _)).
  now apply collect_NoDup.
Qed.

Lemma no_path_is_discovered_twice_witness :
  exists mmd_files,
    (find_mmd_files "." Sample.st0).1 = Ret mmd_files /\ NoDup mmd_files.
Proof.
  apply (no_path_is_discovered_twice Sample.st0 "." Sample.tree0).
  - reflexivity.
  - vm_compute. reflexivity.
  - vm_compute. reflexivity.
  - split; [discriminate | reflexivity].
Defined.

(** ** The error listing *)

Lemma for_each_print_lines (g : string -> string) (l : list string) st :
  for_each l (fun line (_ : unit) => print (g line)) tt st = (Ret tt, with_lines st (map g l)).
Proof.
  revert st. induction l as [|x l IH]; intros st.
  - cbn. now rewrite with_lines_nil.
  - cbn [for_each map]. rewrite (bind_ret_run _ _ _ _ _ (print_run _ st)), IH.
    unfold printed, with_lines. cbn. now rewrite <- app_assoc.
Qed.

Lemma split_go_nonempty sep cur s : 1 <= length (Str.split_go sep cur s).
Proof.
  revert cur. induction s as [|c s IH]; intros cur; cbn [Str.split_go].
  - cbn. lia.
  - destruct (Ascii.eqb c sep); [cbn; lia | apply IH].
Qed.

(** X13.  For a failed file the report prints its path, then the first
    lines of the stripped error text, three at most, then, only when the text
    has more than three lines, the number of lines left out: from two to five
    lines in all, and nothing else happens. *)
Theorem error_listing_is_bounded (mmd_file : string) (error : option string) (st : proc) :
  let error_lines := Str.split (ascii_of_nat 10) (Str.strip (py_str error)) in
  print_error (mmd_file, error) st
  = (Ret tt, with_lines st (error_listing mmd_file error_lines))
  /\ 2 <= length (error_listing mmd_file error_lines) <= 5
  /\ (length error_lines <= 3 ->
      error_listing mmd_file error_lines
      = ("  " ++ mmd_file ++ ":")%string
        :: map (fun line => ("    " ++ line)%string) error_lines)
  /\ (3 < length error_lines ->
      length (error_listing mmd_file error_lines) = 5
      /\ last (error_listing mmd_file error_lines)
         = Some ("    ... (" ++ Str.of_nat (length error_lines - 3) ++ " more lines)")%string).
Proof.
  intros error_lines.
  assert (Hn : 1 <= length error_lines) by apply split_go_nonempty.
  split; [|split; [|split]].
  - unfold print_error. fold error_lines.
    rewrite (bind_ret_run _ _ _ _ _ (print_run _ st)).
    rewrite (bind_ret_run _ _ _ _ _ (for_each_print_lines _ _ _)).
    unfold error_listing.
    destruct (3 <? length error_lines)%nat.
    + rewrite print_run. unfold printed, with_lines. cbn [p_fs p_out p_trace].
      now rewrite <- !app_assoc.
    + unfold ret, printed, with_lines. cbn [p_fs p_out p_trace].
      now rewrite app_nil_r, <- !app_assoc.
  - unfold error_listing. cbn [length]. rewrite length_app, length_map, length_take.
    destruct (3 <? length error_lines)%nat; cbn [length]; lia.
  - intros Hle. unfold error_listing.
    apply Nat.ltb_ge in Hle as Hlt. rewrite Hlt, app_nil_r.
    now rewrite take_ge by lia.
  - intros Hlt. unfold error_listing. apply Nat.ltb_lt in Hlt as Hb. rewrite Hb.
    split.
    + cbn [length]. rewrite length_app, length_map, length_take. cbn [length]. lia.
    + rewrite app_comm_cons. apply last_snoc.
Qed.

Lemma error_listing_is_bounded_witness :
  (print_error ("./a.mmd", Some ("one" ++ Str.nl ++ "two" ++ Str.nl ++ "three" ++ Str.nl
                                 ++ "four" ++ Str.nl ++ "five" ++ Str.nl)%string)
               Sample.st0).1 = Ret tt
  /\ p_out (print_error ("./a.mmd", Some ("one" ++ Str.nl ++ "two" ++ Str.nl ++ "three"
                                          ++ Str.nl ++ "four" ++ Str.nl ++ "five"
                                          ++ Str.nl)%string) Sample.st0).2
     = ["  ./a.mmd:"; "    one"; "    two"; "    three"; "    ... (2 more lines)"].
Proof.
  destruct (error_listing_is_bounded "./a.mmd"
              (Some ("one" ++ Str.nl ++ "two" ++ Str.nl ++ "three" ++ Str.nl
                     ++ "four" ++ Str.nl ++ "five" ++ Str.nl)%string) Sample.st0)
    as (Hrun & _ & _ & Hmore).
  destruct Hmore as [_ Hlast]; [vm_compute; lia|].
  rewrite Hrun. split; [reflexivity|]. vm_compute. reflexivity.
Defined.

(** ** What each counter counts *)

(** X14.  An iteration that returns skips the file exactly when the source
    can be examined and its output exists and is not older, and then it does
    nothing at all; it counts the file as generated only when the output did
    not exist, and as updated only when the output existed and was older. *)
Theorem iteration_counts_by_freshness (host : Host)
    (spawn : FS -> list string -> environment -> launch * FS)
    (mmd_file : string) (t : tally) (st : proc) (t' : tally) (st' : proc) :
  process_file host spawn mmd_file t st = (Ret t', st') ->
  let svg_file := Str.replace mmd_file ".mmd" ".svg" in
  (skipped t' = skipped t + 1 <-> up_to_dateb (p_fs st) mmd_file = true)
  /\ (up_to_dateb (p_fs st) mmd_file = true -> st' = st)
  /\ (generated t' = generated t + 1 -> fs_mtime (p_fs st) svg_file = None)
  /\ (updated t' = updated t + 1 ->
      exists mmd_mtime svg_mtime,
        fs_mtime (p_fs st) mmd_file = Some mmd_mtime
        /\ fs_mtime (p_fs st) svg_file = Some svg_mtime
        /\ (mmd_mtime > svg_mtime)%Z).
Proof.
  intros Hrun svg_file.
  assert (Hstep : forall line t_ok,
    render_step host spawn mmd_file line t t_ok st = (Ret t', st') ->
    t' = t_ok \/ exists err, t' = record_error t mmd_file err).
  { intros line t_ok H.
    destruct (find_chrome_path_quiet host (printed st line)) as (c & walks & Hc & _).
    rewrite (render_step_run _ _ _ _ _ _ _ _ _ Hc) in H. injection H as H _.
    unfold step_result in H. destruct (spawn _ _ _).1 as [code out err|code| |]; try discriminate.
    destruct (code =? 0)%Z; injection H as <-; eauto. }
  rewrite process_file_unfold in Hrun. cbn zeta in Hrun. fold svg_file in Hrun.
  unfold up_to_dateb. fold svg_file.
  destruct (fs_mtime (p_fs st) svg_file) as [o|] eqn:Ho.
  - destruct (fs_mtime (p_fs st) mmd_file) as [m|] eqn:Hm; [|discriminate].
    destruct (Z.gtb_spec m o) as [Hgt|Hle].
    + apply Hstep in Hrun. apply Z.leb_gt in Hgt as Hb. rewrite Hb.
      destruct Hrun as [->|[err ->]]; cbn [generated updated skipped record_error];
        (split; [split; [lia|discriminate]|]); (split; [discriminate|]);
        (split; [lia|]); intros _; exists m, o; repeat split; lia.
    + injection Hrun as <- <-. cbn [generated updated skipped].
      apply Z.leb_le in Hle as Hb. rewrite Hb.
      split; [tauto|]. split; [reflexivity|]. split; lia.
  - apply Hstep in Hrun.
    assert (Hb : match fs_mtime (p_fs st) mmd_file with
                 | Some _ => false | None => false end = false)
      by (now destruct (fs_mtime (p_fs st) mmd_file)).
    rewrite Hb.
    destruct Hrun as [->|[err ->]]; cbn [generated updated skipped record_error];
      (split; [split; [lia|discriminate]|]); (split; [discriminate|]);
      (split; [reflexivity|]); lia.
Qed.

Lemma iteration_counts_by_freshness_witness :
  fs_mtime Sample.fs0 "./arch.svg" = None.
Proof.
  apply (iteration_counts_by_freshness Sample.host0 Sample.spawn0 "./arch.mmd"
           (mkTally 0 0 0 []) Sample.st0 (mkTally 1 0 0 [])
           (process_file Sample.host0 Sample.spawn0 "./arch.mmd" (mkTally 0 0 0 [])
              Sample.st0).2).
  - reflexivity.
  - reflexivity.
Defined.

(** ** A second pass *)

Lemma svg_path_is_no_source f g :
  Str.endswith f ".mmd" = true -> Str.endswith g ".mmd" = true ->
  g <> Str.replace f ".mmd" ".svg".
Proof.
  intros [sf ->]%endswith_spec [sg ->]%endswith_spec H.
  unfold Str.replace in H. rewrite replace_from_mmd in H by lia.
  symmetry in H. now apply svg_is_not_mmd in H.
Qed.

Section SecondPass.

Variable host : Host.
Variable spawn : FS -> list string -> environment -> launch * FS.
Variable all : list string.
Hypothesis Hspawn : renders_well spawn all.

(** What a render of a file of the list does to the freshness of the files
    of the list. *)
Lemma render_keeps_up_to_date fs f env :
  f ∈ all -> is_Some (fs_mtime fs f) ->
  let fs' := (spawn fs (render_argv f) env).2 in
  (forall g, g ∈ all -> fs_mtime fs' g = fs_mtime fs g)
  /\ (forall g, g ∈ all -> up_to_dateb fs g = true -> up_to_dateb fs' g = true)
  /\ up_to_dateb fs' f = true.
Proof.
  intros Hf Hsrc fs'.
  destruct (Hspawn fs f env Hf Hsrc) as (_ & Hsame & (o' & Ho' & Hnew) & Hold).
  fold fs' in Hsame, Ho', Hold.
  split; [exact Hsame|]. split.
  - intros g Hg. unfold up_to_dateb. rewrite (Hsame g Hg).
    destruct (fs_mtime fs g) as [m|]; [|discriminate].
    destruct (fs_mtime fs (Str.replace g ".mmd" ".svg")) as [o|] eqn:Ho; [|discriminate].
    destruct (Hold g o Hg Ho) as (o2 & -> & Hle).
    intros H%Z.leb_le. apply Z.leb_le. lia.
  - destruct Hsrc as [m Hm]. unfold up_to_dateb. rewrite (Hsame f Hf), Hm, Ho'.
    apply Z.leb_le. auto.
Qed.

Lemma pass_brings_up_to_date mmd_files :
  forall t st done,
    (forall f, f ∈ mmd_files -> f ∈ all) ->
    (forall f, f ∈ done -> f ∈ all) ->
    Forall (fun f => is_Some (fs_mtime (p_fs st) f)) all ->
    Forall (fun f => up_to_dateb (p_fs st) f = true) done ->
    exists t' st',
      process_files host spawn mmd_files t st = (Ret t', st')
      /\ errors t' = errors t
      /\ Forall (fun f => up_to_dateb (p_fs st') f = true) (done ++ mmd_files).
Proof.
  induction mmd_files as [|f rest IH]; intros t st done Hin Hdin Hsrc Hdone.
  - exists t, st. rewrite app_nil_r. auto.
  - assert (Hf : f ∈ all) by (apply Hin; left).
    assert (Hrest : forall g, g ∈ rest -> g ∈ all) by (intros g Hg; apply Hin; now right).
    assert (Hdone' : forall g, g ∈ done ++ [f] -> g ∈ all).
    { intros g [Hg|Hg%list_elem_of_singleton]%elem_of_app; [now apply Hdin | now subst]. }
    assert (Hfsrc : is_Some (fs_mtime (p_fs st) f)).
    { rewrite Forall_forall in Hsrc. now apply Hsrc. }
    rewrite process_files_cons, process_file_unfold. cbn zeta.
    assert (Hrender : forall line t_ok,
      errors t_ok = errors t ->
      exists t' st',
        match render_step host spawn f line t t_ok st with
        | (Ret t1, st1) => process_files host spawn rest t1 st1
        | (Raise e, st1) => (Raise e, st1)
        end = (Ret t', st')
        /\ errors t' = errors t
        /\ Forall (fun f => up_to_dateb (p_fs st') f = true) (done ++ f :: rest)).
    { intros line t_ok Herr.
      destruct (find_chrome_path_quiet host (printed st line)) as (c & walks & Hc & _).
      rewrite (render_step_run _ _ _ _ _ _ _ _ _ Hc).
      cbn [with_events printed p_fs].
      destruct (Hspawn (p_fs st) f (child_env host c) Hf Hfsrc) as ((out & err & Hexit) & _).
      cbn zeta in Hexit. rewrite Hexit. cbn [step_result Z.eqb].
      set (st2 := launched spawn _ _ _).
      assert (Hfs2 : p_fs st2 = (spawn (p_fs st) (render_argv f) (child_env host c)).2)
        by reflexivity.
      destruct (render_keeps_up_to_date (p_fs st) f (child_env host c) Hf Hfsrc)
        as (Hsame & Hkeep & Hnow).
      destruct (IH t_ok st2 (done ++ [f]) Hrest Hdone') as (t' & st' & Hrun & Herr' & Hall).
      - rewrite Hfs2. apply Forall_forall. intros g Hg. rewrite (Hsame g Hg).
        rewrite Forall_forall in Hsrc. now apply Hsrc.
      - rewrite Hfs2. apply Forall_app. split.
        + apply Forall_forall. intros g Hg. rewrite Forall_forall in Hdone.
          apply Hkeep; [now apply Hdin | now apply Hdone].
        + repeat constructor. exact Hnow.
      - exists t', st'. split; [exact Hrun|]. split; [congruence|].
        now rewrite <- app_assoc in Hall. }
    destruct Hfsrc as [m Hm]. rewrite Hm.
    destruct (fs_mtime (p_fs st) (Str.replace f ".mmd" ".svg")) as [o|] eqn:Ho.
    + destruct (Z.gtb_spec m o) as [Hgt|Hle]; [now apply Hrender|].
      destruct (IH (mkTally (generated t) (updated t) (skipped t + 1) (errors t)) st
                   (done ++ [f]) Hrest Hdone' Hsrc) as (t' & st' & Hrun & Herr' & Hall).
      * apply Forall_app. split; [exact Hdone|]. repeat constructor.
        unfold up_to_dateb. rewrite Hm, Ho. now apply Z.leb_le.
      * exists t', st'. split; [exact Hrun|]. split; [exact Herr'|].
        now rewrite <- app_assoc in Hall.
    + now apply Hrender.
Qed.

End SecondPass.

(** X15.  When the renderer renders the files of a list well (launched for
    one of them it exits with status 0 having written text and leaves the
    output not older than the source, without changing the time of a listed
    source or removing or ageing a listed output), a pass over the list, its
    sources being examinable, records no error and leaves every file up to
    date, so that a second pass over the same files, from the state the first
    one left, launches nothing and skips them all. *)
Theorem second_pass_skips_everything (host : Host)
    (spawn : FS -> list string -> environment -> launch * FS)
    (mmd_files : list string) (t : tally) (st : proc) :
  renders_well spawn mmd_files ->
  Forall (fun f => is_Some (fs_mtime (p_fs st) f)) mmd_files ->
  exists t' st',
    process_files host spawn mmd_files t st = (Ret t', st')
    /\ errors t' = errors t
    /\ Forall (fun f => up_to_dateb (p_fs st') f = true) mmd_files
    /\ process_files host spawn mmd_files t' st'
       = (Ret (mkTally (generated t') (updated t') (skipped t' + length mmd_files) (errors t')),
          st').
Proof.
  intros Hspawn Hsrc.
  destruct (pass_brings_up_to_date host spawn mmd_files Hspawn mmd_files t st [])
    as (t' & st' & Hrun & Herr & Hall); [auto | intros f Hf; inversion Hf | exact Hsrc
                                          | constructor |].
  cbn [app] in Hall. exists t', st'. split; [exact Hrun|]. split; [exact Herr|].
  split; [exact Hall|]. now apply process_files_up_to_date.
Qed.

Lemma spawn_touch_renders_well (mmd_files : list string) :
  Forall (fun f => Str.endswith f ".mmd" = true) mmd_files ->
  renders_well Cases.spawn_touch mmd_files.
Proof.
  intros Hext fs f env Hf [m Hm] r. subst r.
  rewrite Forall_forall in Hext.
  unfold render_argv, Cases.spawn_touch. cbn [fst snd fs_mtime].
  split; [eauto|]. split; [|split].
  - intros g Hg.
    assert (Hne : g <> Str.replace f ".mmd" ".svg") by (apply svg_path_is_no_source; auto).
    apply String.eqb_neq in Hne. now rewrite Hne.
  - eexists. rewrite String.eqb_refl. split; [reflexivity|].
    intros m' Hm'. rewrite Hm' . cbn. lia.
  - intros g o Hg Ho.
    destruct (String.eqb_spec (Str.replace g ".mmd" ".svg") (Str.replace f ".mmd" ".svg"))
      as [Heq|Hne].
    + eexists. split; [reflexivity|]. rewrite Heq in Ho. rewrite Ho. cbn. lia.
    + exists o. split; [exact Ho | lia].
Qed.

Lemma second_pass_skips_everything_witness :
  exists t' st',
    process_files Sample.host0 Cases.spawn_touch (discovered Sample.fs0 ".")
                  (mkTally 0 0 0 []) Sample.st0 = (Ret t', st')
    /\ process_files Sample.host0 Cases.spawn_touch (discovered Sample.fs0 ".") t' st'
       = (Ret (mkTally (generated t') (updated t') (skipped t' + 4) (errors t')), st').
Proof.
  destruct (second_pass_skips_everything Sample.host0 Cases.spawn_touch
              (discovered Sample.fs0 ".") (mkTally 0 0 0 []) Sample.st0)
    as (t' & st' & Hrun & _ & _ & Hagain).
  - apply spawn_touch_renders_well. vm_compute. repeat constructor.
  - vm_compute. repeat (constructor; [eexists; reflexivity|]). constructor.
  - exists t', st'. split; [exact Hrun | exact Hagain].
Defined.

(** ** The order of a listing *)

(** X16.  The discovery result depends on the matching paths only, not on
    the order in which the operating system lists a directory: two file
    systems whose walks collect the same paths, in whatever order, give the
    same list. *)
Theorem discovery_ignores_listing_order (st st' : proc) (top : string) :
  collect_mmd match fs_tree (p_fs st) top with
              | Some t => walk keep_dir top t
              | None => []
              end
  ≡ₚ collect_mmd match fs_tree (p_fs st') top with
                 | Some t => walk keep_dir top t
                 | None => []
                 end ->
  (find_mmd_files top st).1 = (find_mmd_files top st').1.
Proof.
  intros Hperm. rewrite !find_mmd_files_run. cbn [fst]. f_equal. unfold discovered.
  apply (Sorted_unique String.le).
  - apply (Sorted_merge_sort String.le).
  - apply (Sorted_merge_sort String.le).
  - now rewrite !(sorted_perm (collect_mmd _)).
Qed.

Lemma discovery_ignores_listing_order_witness :
  (find_mmd_files "." Sample.st0).1 = (find_mmd_files "." Cases.st_reordered).1.
Proof.
  apply (discovery_ignores_listing_order Sample.st0 Cases.st_reordered ".").
  apply (bool_decide_unpack _). vm_compute. exact I.
Defined.

(** ** The errors recorded *)

Section Errors.

Variable host : Host.
Variable spawn : FS -> list string -> environment -> launch * FS.

Lemma process_file_errors mmd_file t st t' st' :
  process_file host spawn mmd_file t st = (Ret t', st') ->
  errors t' = errors t \/ exists err, errors t' = errors t ++ [(mmd_file, Some err)].
Proof.
  assert (Hstep : forall line t_ok,
    errors t_ok = errors t ->
    render_step host spawn mmd_file line t t_ok st = (Ret t', st') ->
    errors t' = errors t \/ exists err, errors t' = errors t ++ [(mmd_file, Some err)]).
  { intros line t_ok Hok H.
    destruct (find_chrome_path_quiet host (printed st line)) as (c & walks & Hc & _).
    rewrite (render_step_run _ _ _ _ _ _ _ _ _ Hc) in H. injection H as H _.
    unfold step_result in H. destruct (spawn _ _ _).1 as [code out err|code| |]; try discriminate.
    destruct (code =? 0)%Z; injection H as <-; [now left | right; now exists err]. }
  rewrite process_file_unfold. cbn zeta.
  destruct (fs_mtime (p_fs st) (Str.replace mmd_file ".mmd" ".svg")) as [o|];
    [destruct (fs_mtime (p_fs st) mmd_file) as [m|]; [destruct (m >? o)%Z|]|].
  - now apply Hstep.
  - intros [= <- _]. now left.
  - discriminate.
  - now apply Hstep.
Qed.

End Errors.

(** X17.  The errors a loop adds are pairs of a file of the list and a
    captured error text, never a missing one, in the order of the list and at
    most one for a file. *)
Theorem recorded_errors_name_processed_files (host : Host)
    (spawn : FS -> list string -> environment -> launch * FS)
    (mmd_files : list string) (t : tally) (st : proc) (t' : tally) (st' : proc) :
  process_files host spawn mmd_files t st = (Ret t', st') ->
  exists new,
    errors t' = errors t ++ new
    /\ map fst new `sublist_of` mmd_files
    /\ Forall (fun e => is_Some e.2) new.
Proof.
  revert t st. induction mmd_files as [|f rest IH]; intros t st Hrun.
  - injection Hrun as <- _. exists []. rewrite app_nil_r.
    split; [reflexivity|]. split; constructor.
  - rewrite process_files_cons in Hrun.
    destruct (process_file host spawn f t st) as [[t1|e] st1] eqn:Hstep; [|discriminate].
    destruct (IH _ _ Hrun) as (new & Hnew & Hsub & Hsome).
    apply process_file_errors in Hstep as [Heq|[err Heq]]; rewrite Heq in Hnew.
    + exists new. split; [exact Hnew|]. split; [now apply sublist_cons | exact Hsome].
    + exists ((f, Some err) :: new). rewrite <- app_assoc in Hnew.
      split; [exact Hnew|]. split; [cbn; now apply sublist_skip|].
      constructor; [cbn; eauto | exact Hsome].
Qed.

Lemma recorded_errors_name_processed_files_witness :
  exists new,
    new = [("./docs/flow.mmd", Some "Error: Failed to launch the browser process")]
    /\ map fst new `sublist_of` discovered Sample.fs0 ".".
Proof.
  pose (R := process_files Sample.host0 Sample.spawn0 (discovered Sample.fs0 ".")
               (mkTally 0 0 0 []) Sample.st0).
  pose (t' := mkTally 2 0 1 [("./docs/flow.mmd",
                              Some "Error: Failed to launch the browser process")]).
  assert (H1 : R.1 = Ret t') by (vm_compute; reflexivity).
  assert (Hrun : R = (Ret t', R.2)) by (rewrite <- H1; apply surjective_pairing).
  destruct (recorded_errors_name_processed_files _ _ _ _ _ _ _ Hrun) as (new & Hnew & Hsub & _).
  cbn [errors t' app] in Hnew. subst new. eexists. split; [reflexivity | exact Hsub].
Defined.

(** ** Output that is not text *)

(** X18.  When what the renderer wrote for a file is not text, whatever its
    exit status, the render is neither a success nor a recorded error: the
    exception of the decoding is not caught, the loop stops at that file and
    the files after it are not processed. *)
Theorem undecodable_output_ends_the_loop (host : Host)
    (spawn : FS -> list string -> environment -> launch * FS)
    (pre : list string) (mmd_file : string) (post : list string)
    (t : tally) (st : proc) (t1 : tally) (st1 : proc)
    (evs : list event) (env : environment) (code : Z) :
  process_files host spawn pre t st = (Ret t1, st1) ->
  p_trace (process_file host spawn mmd_file t1 st1).2 = p_trace st1 ++ evs ->
  EvRun (render_argv mmd_file) env (Garbled code) ∈ evs ->
  (process_file host spawn mmd_file t1 st1).1 = Raise UnicodeDecodeError
  /\ process_files host spawn (pre ++ mmd_file :: post) t st
     = (Raise UnicodeDecodeError, (process_file host spawn mmd_file t1 st1).2)
  /\ exit_status (process_files host spawn (pre ++ mmd_file :: post) t st).1 = 1%Z.
Proof.
  intros Hpre Htr Hin.
  destruct (process_file_outcome host spawn _ _ _ _ _ _ _ Htr Hin) as (_ & t_ok & Hres).
  cbn [step_result] in Hres.
  assert (Hl : process_files host spawn (pre ++ mmd_file :: post) t st
               = (Raise UnicodeDecodeError, (process_file host spawn mmd_file t1 st1).2)).
  { rewrite process_files_app, Hpre, process_files_cons.
    destruct (process_file host spawn mmd_file t1 st1) as [r st2]. cbn [fst snd] in *.
    now rewrite Hres. }
  split; [exact Hres|]. split; [exact Hl|]. now rewrite Hl.
Qed.

Lemma undecodable_output_ends_the_loop_witness :
  process_files Sample.host0 Cases.spawn_garbled_render
    (["./docs/seq.mmd"] ++ "./docs/flow.mmd" :: ["./zeta/late.mmd"])
    (mkTally 0 0 0 []) Sample.st0
  = (Raise UnicodeDecodeError,
     (process_file Sample.host0 Cases.spawn_garbled_render "./docs/flow.mmd"
        (mkTally 0 0 1 []) Sample.st0).2).
Proof.
  eapply (undecodable_output_ends_the_loop Sample.host0 Cases.spawn_garbled_render
            ["./docs/seq.mmd"] "./docs/flow.mmd" ["./zeta/late.mmd"]
            (mkTally 0 0 0 []) Sample.st0 (mkTally 0 0 1 []) Sample.st0 _ _ 1%Z).
  - reflexivity.
  - vm_compute. reflexivity.
  - apply list_elem_of_here.
Defined.
